(** * Elasecutor resource monitor ([Monitor/resMon.py]): a shallow embedding

    The script samples host telemetry at a fixed cadence with three monitors
    ([ResMonitor], [NetworkInterfaceMonitor], [ProcessSetMonitor]) driven by
    one [sched.scheduler] loop in [main].

    Conventions of the embedding.
    - Python [int] is [Z]; Python [float] is IEEE binary64 ([PrimFloat.float]);
      [str] is [string].  [x >> 20] is [Z.shiftr x 20].
    - A call into [psutil], [time], [sched] or a file object is an interaction
      with the outside world.  What the world answers is an argument of the
      model (an [outcome]: the call returns a value, raises, or never
      returns); what the program does to the world is appended to a [trace].
    - Methods that mutate [self] return the updated object.
    - [dict]s that are only looked up are [gmap]s; the [dict] of open log files,
      whose iteration order decides the order of writes, is an association
      list in insertion order; [set]s are [gset]s. *)

From Stdlib Require Import ZArith Floats Ascii Lia.
From stdpp Require Import base strings gmap list pretty.

Open Scope Z_scope.

(** ** Exceptions and outcomes *)

(** The exception classes the script raises, catches or lets through. *)
Inductive exn : Type :=
| KeyboardInterrupt
| ValueError (msg : string)
| KeyError (key : string)
| OSError
| NoSuchProcess
| AccessDenied
| UnboundLocalError (name : string)
| OtherError (cls : string).

(** How a computation (or a call into the outside world) ends: it returns,
    it raises, or it never comes back (a hanging system call, or a loop that
    is still running when the fuel of the model is used up). *)
Inductive outcome (A : Type) : Type :=
| Ok (a : A)
| Raise (e : exn)
| Diverge.
Arguments Ok {A} a.
Arguments Raise {A} e.
Arguments Diverge {A}.

(** ** A state-and-exception monad

    [S] is the state that survives an exception: the trace of effects for the
    monitors, the trace and the local variables for [main]. *)
Definition M (S A : Type) : Type := S → outcome A * S.

Definition ret {S A} (a : A) : M S A := λ s, (Ok a, s).

Definition bind {S A B} (m : M S A) (k : A → M S B) : M S B :=
  λ s, match m s with
       | (Ok a, s') => k a s'
       | (Raise e, s') => (Raise e, s')
       | (Diverge, s') => (Diverge, s')
       end.

Definition raise {S A} (e : exn) : M S A := λ s, (Raise e, s).

(** The answer of the outside world to one call. *)
Definition call {S A} (r : outcome A) : M S A := λ s, (r, s).

(** [try: body except ...: handler]: [handler e] is [None] when no [except]
    clause matches [e]. *)
Definition try_except {S A} (body : M S A) (handler : exn → option (M S A)) : M S A :=
  λ s, match body s with
       | (Raise e, s') =>
           match handler e with
           | Some h => h s'
           | None => (Raise e, s')
           end
       | r => r
       end.

(** [try: body finally: final]: [final] runs on return and on exception; an
    exception of [final] replaces the pending one. *)
Definition try_finally {S A} (body : M S A) (final : M S unit) : M S A :=
  λ s, match body s with
       | (Diverge, s') => (Diverge, s')
       | (r, s') =>
           match final s' with
           | (Ok _, s'') => (r, s'')
           | (Raise e, s'') => (Raise e, s'')
           | (Diverge, s'') => (Diverge, s'')
           end
       end.

Declare Scope py_scope.
Delimit Scope py_scope with py.
Notation "x <- m ;; k" := (bind m (λ x, k))
  (at level 100, m at next level, right associativity) : py_scope.
Notation "m ;; k" := (bind m (λ _, k))
  (at level 100, right associativity) : py_scope.
Open Scope py_scope.

(** [for x in l: body x]. *)
Fixpoint for_each {S A} (l : list A) (body : A → M S unit) : M S unit :=
  match l with
  | [] => ret tt
  | x :: l' => body x ;; for_each l' body
  end.

(** ** The observable world: streams and files *)

(** Where text goes: the two standard streams, or a file object returned by
    [open] (numbered in the order of the [open] calls). *)
Inductive sink : Type :=
| Stdout
| Stderr
| File (fd : nat).

#[global] Instance sink_eq_dec : EqDecision sink.
Proof. solve_decision. Defined.

(** The three monitors, as targets of scheduled events. *)
Inductive monitor : Type := Res | Nic | Ps.

#[global] Instance monitor_eq_dec : EqDecision monitor.
Proof. solve_decision. Defined.

Inductive event : Type :=
| EvOpen (fd : nat) (path : string)      (* open(path, 'w') returned file fd *)
| EvWrite (out : sink) (text : string)   (* out.write(text), print(text) *)
| EvFlush (out : sink)                   (* out.flush() *)
| EvClose (out : sink)                   (* out.close() *)
| EvEnter (time : float) (priority : Z) (target : monitor)
                                         (* scheduler.enterabs(...) *)
| EvSleep (delay : float)                (* time.sleep(delay) *)
| EvRun (target : monitor)               (* the scheduler calls an action *)
| EvDone (target : monitor).             (* the action has returned *)

Abbreviation trace := (list event).

Definition emit (e : event) : M trace unit := λ tr, (Ok tt, tr ++ [e]).

(** The newline character. *)
Definition NL : string := String (ascii_of_nat 10) EmptyString.

(** [print(text, file=out)]; printing is taken not to fail. *)
Definition print (out : sink) (text : string) : M trace unit :=
  emit (EvWrite out (text +:+ NL)).

Definition is_open (e : event) : bool :=
  match e with EvOpen _ _ => true | _ => false end.

(** [open(path, 'w')]: a fresh file object. *)
Definition fopen (path : string) (answer : outcome unit) : M trace sink :=
  call answer ;;
  λ tr, let fd := length (filter is_open tr) in
        (Ok (File fd), tr ++ [EvOpen fd path]).

Definition fwrite (out : sink) (text : string) (answer : outcome unit) : M trace unit :=
  call answer ;; emit (EvWrite out text).

Definition fflush (out : sink) (answer : outcome unit) : M trace unit :=
  call answer ;; emit (EvFlush out).

Definition fclose (out : sink) (answer : outcome unit) : M trace unit :=
  call answer ;; emit (EvClose out).

(** ** Python numbers *)

(** [float(z)] for an [int] operand of mixed arithmetic: the nearest
    binary64 (an [int] beyond the range of binary64, for which Python raises
    [OverflowError], becomes an infinity). *)
Definition float_of_int (z : Z) : float :=
  SF2Prim (binary_normalize prec emax z 0 false).

(** [int(x)] of a float: truncation toward zero; it raises on infinities and
    NaN. *)
Definition int_of_float (x : float) : outcome Z :=
  match Prim2SF x with
  | S754_zero _ => Ok 0
  | S754_finite s m e =>
      let a := if (0 <=? e) then Z.shiftl (Z.pos m) e else Z.shiftr (Z.pos m) (- e) in
      Ok (if s then - a else a)
  | S754_infinity _ => Raise (OtherError "OverflowError")
  | S754_nan => Raise (ValueError "cannot convert float NaN to integer")
  end.

(** [repr] of a float, which [str] and f-strings use.  The shortest decimal
    string that reads back as the same float is Python's business; the model
    takes it as a parameter. *)
Class FloatRepr : Type := float_repr : float → string.

(** A value that is an [int] or a [float] at run time. *)
Inductive pynum : Type :=
| PInt (z : Z)
| PFloat (x : float).

(** [a + b] on numbers: an [int] operand meets a [float] as [float(int)]. *)
Definition py_add (a b : pynum) : pynum :=
  match a, b with
  | PInt x, PInt y => PInt (x + y)
  | PInt x, PFloat y => PFloat (float_of_int x + y)%float
  | PFloat x, PInt y => PFloat (x + float_of_int y)%float
  | PFloat x, PFloat y => PFloat (x + y)%float
  end.

Definition py_str `{FloatRepr} (a : pynum) : string :=
  match a with
  | PInt z => pretty z
  | PFloat x => float_repr x
  end.

(** [sep.join(l)]. *)
Definition join (sep : string) (l : list string) : string := String.concat sep l.

(** ** [class ResMonitor] *)

Module ResMonitor.

(** [psutil.disk_io_counters()]. *)
Record sdiskio : Type := {
  read_count : Z;
  write_count : Z;
  read_bytes : Z;
  write_bytes : Z;
  read_time : Z;
  write_time : Z;
}.

(** [psutil.virtual_memory()], the fields the monitor reads. *)
Record svmem : Type := {
  vm_percent : float;
  vm_total : Z;
  vm_used : Z;
  vm_available : Z;
  vm_free : Z;
}.

(** [psutil.swap_memory()], the fields the monitor reads. *)
Record sswap : Type := {
  sw_percent : float;
  sw_total : Z;
  sw_used : Z;
  sw_free : Z;
}.

(** The attributes of a [ResMonitor] object. *)
Record t : Type := {
  ncores : Z;
  outfile : sink;
  flush : bool;
  prev_disk_stat : sdiskio;
  starttime : Z;
}.

(** The answers of the outside world during [__init__], in call order. *)
Record init_env : Type := {
  i_cpu_count : outcome Z;
  i_open : outcome unit;
  i_disk_io_counters : outcome sdiskio;
  i_time : outcome float;
  i_write : outcome unit;
}.

(** The answers of the outside world during one [poll_stat], in call
    order. *)
Record poll_env : Type := {
  p_time : outcome float;
  p_cpu_percent : outcome float;
  p_percpu_percent : outcome (list float);
  p_virtual_memory : outcome svmem;
  p_swap_memory : outcome sswap;
  p_disk_io_counters : outcome sdiskio;
  p_write : outcome unit;
  p_flush : outcome unit;
}.

Section WithRepr.
Context {repr : FloatRepr}.

(** [range(n)]. *)
Definition range (n : Z) : list Z := Z.of_nat <$> seq 0 (Z.to_nat n).

Definition header (self : t) : string :=
  "Timestamp, Uptime, NCPU, %CPU, "
  +:+ join ", " ((λ i, "%CPU" +:+ pretty i) <$> range (ncores self))
  +:+ ", %MEM, mem.total.MB, mem.used.MB, mem.avail.MB, mem.free.MB"
  +:+ ", %SWAP, swap.total.MB, swap.used.MB, swap.free.MB"
  +:+ ", io.read, io.write, io.read.MB, io.write.MB, io.read.ms, io.write.ms" +:+ NL.

Definition _write_header (self : t) (answer : outcome unit) : M trace unit :=
  fwrite (outfile self) (header self) answer.

(** [open(outfile_name, 'w') if outfile_name else sys.stdout]: [None] and the
    empty string are both false. *)
Definition open_outfile (outfile_name : option string) (answer : outcome unit) : M trace sink :=
  match outfile_name with
  | Some (String c s) => fopen (String c s) answer
  | _ => ret Stdout
  end.

Definition __init__ (outfile_name : option string) (flush : bool) (env : init_env) : M trace t :=
  print Stderr "Resource monitor started." ;;
  ncores <- call (i_cpu_count env) ;;
  outfile <- open_outfile outfile_name (i_open env) ;;
  prev_disk_stat <- call (i_disk_io_counters env) ;;
  now <- call (i_time env) ;;
  starttime <- call (int_of_float now) ;;
  let self := {| ncores := ncores; outfile := outfile; flush := flush;
                 prev_disk_stat := prev_disk_stat; starttime := starttime |} in
  _write_header self (i_write env) ;;
  ret self.

(** [if self.outfile is not sys.stdout: self.outfile.close()], then the
    notice. *)
Definition close (self : t) (answer : outcome unit) : M trace unit :=
  (if decide (outfile self = Stdout) then ret tt else fclose (outfile self) answer) ;;
  print Stderr "Resource monitor closed.".

(** The aggregate [%CPU] cell: [total_cpu_percent * self.ncores]. *)
Definition cpu_cell (self : t) (total_cpu_percent : float) : float :=
  (total_cpu_percent * float_of_int (ncores self))%float.

(** The six disk cells, in the order of the row. *)
Definition disk_cells (self : t) (disk_stat : sdiskio) : list Z :=
  [ read_count disk_stat - read_count (prev_disk_stat self);
    write_count disk_stat - write_count (prev_disk_stat self);
    Z.shiftr (read_bytes disk_stat - read_bytes (prev_disk_stat self)) 20;
    Z.shiftr (write_bytes disk_stat - write_bytes (prev_disk_stat self)) 20;
    read_time disk_stat - read_time (prev_disk_stat self);
    write_time disk_stat - write_time (prev_disk_stat self) ].

(** The text of one row, without the newline. *)
Definition line (self : t) (timestamp uptime : Z) (total_cpu_percent : float)
    (percpu_percent : list float) (mem_stat : svmem) (swap_stat : sswap)
    (disk_stat : sdiskio) : string :=
  pretty timestamp +:+ ", " +:+ pretty uptime +:+ ", " +:+ pretty (ncores self) +:+ ", "
  +:+ float_repr (cpu_cell self total_cpu_percent) +:+ ", "
  +:+ join ", " (float_repr <$> percpu_percent)
  +:+ ", " +:+ float_repr (vm_percent mem_stat)
  +:+ ", " +:+ pretty (Z.shiftr (vm_total mem_stat) 20)
  +:+ ", " +:+ pretty (Z.shiftr (vm_used mem_stat) 20)
  +:+ ", " +:+ pretty (Z.shiftr (vm_available mem_stat) 20)
  +:+ ", " +:+ pretty (Z.shiftr (vm_free mem_stat) 20)
  +:+ ", " +:+ float_repr (sw_percent swap_stat)
  +:+ ", " +:+ pretty (Z.shiftr (sw_total swap_stat) 20)
  +:+ ", " +:+ pretty (Z.shiftr (sw_used swap_stat) 20)
  +:+ ", " +:+ pretty (Z.shiftr (sw_free swap_stat) 20)
  +:+ ", " +:+ join ", " (pretty <$> disk_cells self disk_stat).

Definition set_prev_disk_stat (self : t) (disk_stat : sdiskio) : t :=
  {| ncores := ncores self; outfile := outfile self; flush := flush self;
     prev_disk_stat := disk_stat; starttime := starttime self |}.

Definition poll_stat (self : t) (env : poll_env) : M trace t :=
  now <- call (p_time env) ;;
  timestamp <- call (int_of_float now) ;;
  let uptime := timestamp - starttime self in
  total_cpu_percent <- call (p_cpu_percent env) ;;
  percpu_percent <- call (p_percpu_percent env) ;;
  mem_stat <- call (p_virtual_memory env) ;;
  swap_stat <- call (p_swap_memory env) ;;
  disk_stat <- call (p_disk_io_counters env) ;;
  let line := line self timestamp uptime total_cpu_percent percpu_percent
                mem_stat swap_stat disk_stat in
  fwrite (outfile self) (line +:+ NL) (p_write env) ;;
  (if flush self then fflush (outfile self) (p_flush env) else ret tt) ;;
  ret (set_prev_disk_stat self disk_stat).

End WithRepr.
End ResMonitor.

(** [d[key]] on a [dict] that is only read. *)
Definition getitem {S V} (d : gmap string V) (key : string) : M S V :=
  match d !! key with
  | Some v => ret v
  | None => raise (KeyError key)
  end.

(** [d[key] = v] on an insertion-ordered [dict]: a new key goes last, a known
    key keeps its place. *)
Fixpoint dict_set {V} (key : string) (v : V) (d : list (string * V)) : list (string * V) :=
  match d with
  | [] => [(key, v)]
  | (k, w) :: d' => if decide (k = key) then (k, v) :: d' else (k, w) :: dict_set key v d'
  end.

(** ** [class NetworkInterfaceMonitor] *)

Module NetworkInterfaceMonitor.

(** One entry of [psutil.net_io_counters(pernic=True)]. *)
Record snetio : Type := {
  bytes_sent : Z;
  bytes_recv : Z;
  packets_sent : Z;
  packets_recv : Z;
  errin : Z;
  errout : Z;
  dropin : Z;
  dropout : Z;
}.

(** The attributes of a [NetworkInterfaceMonitor] object. *)
Record t : Type := {
  nic_files : list (string * sink);
  prev_stat : gmap string snetio;
  starttime : Z;
  flush : bool;
}.

(** The answers of the outside world during one [poll_stat]; the answers to
    the file operations are given per interface. *)
Record poll_env : Type := {
  p_time : outcome float;
  p_net_io_counters : outcome (gmap string snetio);
  p_write : string → outcome unit;
  p_flush : string → outcome unit;
}.

(** The answers of the outside world during [__init__].  Every call of
    [psutil.net_if_stats()] (one per requested name) gets the answer
    [i_net_if_stats], every call of [psutil.net_io_counters] (one per
    retained name) the answer [i_net_io_counters]. *)
Record init_env : Type := {
  i_net_if_stats : outcome (gset string);
  i_open : string → outcome unit;
  i_write : string → outcome unit;
  i_net_io_counters : outcome (gmap string snetio);
  i_time : outcome float;
  i_poll : poll_env;
}.

(** [pattern.format(nic=nic_name)] for a pattern whose replacement fields are
    all [{nic}]. *)
Fixpoint format_nic (pattern nic_name : string) : string :=
  match pattern with
  | String "{"%char (String "n"%char (String "i"%char (String "c"%char
      (String "}"%char rest)))) =>
      nic_name +:+ format_nic rest nic_name
  | String c rest => String c (format_nic rest nic_name)
  | EmptyString => EmptyString
  end.

Definition header : string :=
  "Timestamp, Uptime, NIC, sent.MB, recv.MB, sent.pkts, recv.pkts, err.in, err.out, drop.in, drop.out" +:+ NL.

Definition create_new_logfile (pattern nic_name : string) (env : init_env) : M trace sink :=
  f <- fopen (format_nic pattern nic_name) (i_open env nic_name) ;;
  fwrite f header (i_write env nic_name) ;;
  ret f.

(** [{nic_name: self.create_new_logfile(outfile_pattern, nic_name)
      for nic_name in (nics or []) if nic_name in psutil.net_if_stats()}],
    as the loop it abbreviates; [d] is the dict built so far. *)
Fixpoint open_nic_files (pattern : string) (nics : list string) (env : init_env)
    (d : list (string * sink)) : M trace (list (string * sink)) :=
  match nics with
  | [] => ret d
  | nic_name :: rest =>
      existing <- call (i_net_if_stats env) ;;
      if decide (nic_name ∈ existing) then
        f <- create_new_logfile pattern nic_name env ;;
        open_nic_files pattern rest env (dict_set nic_name f d)
      else open_nic_files pattern rest env d
  end.

(** [{nic: psutil.net_io_counters(pernic=True)[nic] for nic in self.nic_files}]. *)
Fixpoint initial_stat (nics : list string) (env : init_env)
    (d : gmap string snetio) : M trace (gmap string snetio) :=
  match nics with
  | [] => ret d
  | nic :: rest =>
      counters <- call (i_net_io_counters env) ;;
      stat <- getitem counters nic ;;
      initial_stat rest env (<[nic := stat]> d)
  end.

(** The text one interface's file receives in a poll. *)
Definition line (timestamp uptime : Z) (nic : string) (curr_stat prevstat : snetio) : string :=
  pretty timestamp +:+ ", " +:+ pretty uptime +:+ ", " +:+ nic +:+ ", "
  +:+ pretty (Z.shiftr (bytes_sent curr_stat - bytes_sent prevstat) 20) +:+ ", "
  +:+ pretty (Z.shiftr (bytes_recv curr_stat - bytes_recv prevstat) 20) +:+ ", "
  +:+ pretty (packets_sent curr_stat - packets_sent prevstat) +:+ ", "
  +:+ pretty (packets_recv curr_stat - packets_recv prevstat) +:+ ", "
  +:+ pretty (errin curr_stat - errin prevstat) +:+ ", "
  +:+ pretty (errout curr_stat - errout prevstat) +:+ ", "
  +:+ pretty (dropin curr_stat - dropin prevstat) +:+ ", "
  +:+ pretty (dropout curr_stat - dropout prevstat) +:+ NL.

Definition set_prev_stat (self : t) (net_stat : gmap string snetio) : t :=
  {| nic_files := nic_files self; prev_stat := net_stat;
     starttime := starttime self; flush := flush self |}.

(** The body of [for nic, f in self.nic_files.items()]. *)
Definition poll_nic (self : t) (env : poll_env) (timestamp uptime : Z)
    (net_stat : gmap string snetio) (item : string * sink) : M trace unit :=
  let '(nic, f) := item in
  curr_stat <- getitem net_stat nic ;;
  prevstat <- getitem (prev_stat self) nic ;;
  fwrite f (line timestamp uptime nic curr_stat prevstat) (p_write env nic) ;;
  if flush self then fflush f (p_flush env nic) else ret tt.

Definition poll_stat (self : t) (env : poll_env) : M trace t :=
  now <- call (p_time env) ;;
  timestamp <- call (int_of_float now) ;;
  let uptime := timestamp - starttime self in
  net_stat <- call (p_net_io_counters env) ;;
  for_each (nic_files self) (poll_nic self env timestamp uptime net_stat) ;;
  ret (set_prev_stat self net_stat).

Definition __init__ (outfile_pattern : string) (nics : option (list string))
    (flush : bool) (env : init_env) : M trace t :=
  print Stderr "NIC monitor started." ;;
  nic_files <- open_nic_files outfile_pattern (default [] nics) env [] ;;
  match nic_files with
  | [] => raise (ValueError "No NIC to monitor.")
  | _ =>
      prev_stat <- initial_stat (nic_files.*1) env ∅ ;;
      now <- call (i_time env) ;;
      starttime <- call (int_of_float now) ;;
      poll_stat {| nic_files := nic_files; prev_stat := prev_stat;
                   starttime := starttime; flush := flush |} (i_poll env)
  end.

(** The default of the [outfile_pattern] argument. *)
Definition default_pattern : string := "netstat.{nic}.csv".

(** [for f in self.nic_files.values(): f.close()], then the notice. *)
Definition close (self : t) (answer : string → outcome unit) : M trace unit :=
  for_each (nic_files self) (λ item, fclose item.2 (answer item.1)) ;;
  print Stderr "NIC monitor closed.".

End NetworkInterfaceMonitor.

(** ** Strings: [lower], [in], [sorted] *)

(** [c.lower()] on an ASCII letter. *)
Definition lower_ascii (c : ascii) : ascii :=
  let n := nat_of_ascii c in
  if ((65 <=? n)%nat && (n <=? 90)%nat)%bool then ascii_of_nat (n + 32) else c.

(** [s.lower()]; process names are taken to be ASCII. *)
Fixpoint lower (s : string) : string :=
  match s with
  | EmptyString => EmptyString
  | String c s' => String (lower_ascii c) (lower s')
  end.

(** [k in s] on strings: [k] occurs in [s] as a substring. *)
Fixpoint contains (k s : string) : bool :=
  String.prefix k s ||
  match s with
  | EmptyString => false
  | String _ s' => contains k s'
  end.

(** [sorted(l)] on strings (comparison by code point), as an insertion
    sort; like Python's sort it is stable. *)
Fixpoint insert_sorted (x : string) (l : list string) : list string :=
  match l with
  | [] => [x]
  | y :: l' => if String.ltb x y then x :: y :: l' else y :: insert_sorted x l'
  end.

Definition sorted (l : list string) : list string :=
  fold_left (λ acc x, insert_sorted x acc) l [].

(** [any(l)]. *)
Definition any (l : list bool) : bool := existsb id l.

(** ** [class ProcessSetMonitor] *)

Module ProcessSetMonitor.

(** [proc.io_counters()], the fields the monitor reads. *)
Record pio : Type := {
  read_count : Z;
  write_count : Z;
  read_bytes : Z;
  write_bytes : Z;
}.

(** A [psutil.Process] as [process_iter(attrs=['pid', 'name'])] yields it:
    the two cached attributes of [proc.info] (the name is taken to be known,
    where [psutil] would put [None] for a process it may not look at), and
    what each of the four queries will answer when the monitor makes it. *)
Record process : Type := {
  pid : Z;
  name : string;
  io_counters : outcome pio;
  memory_info_rss : outcome Z;
  memory_percent : outcome float;
  cpu_percent : outcome float;
}.

(** The class attribute [BASE_STAT]. *)
Definition BASE_STAT : list (string * pynum) :=
  [ ("io.read", PInt 0);
    ("io.write", PInt 0);
    ("io.read.MB", PInt 0);
    ("io.write.MB", PInt 0);
    ("mem.rss.MB", PInt 0);
    ("%MEM", PInt 0);
    ("%CPU", PInt 0) ].

(** The attributes of a [ProcessSetMonitor] object. *)
Record t : Type := {
  outfile : sink;
  pids : gset Z;
  keywords : list string;
  flush : bool;
  starttime : Z;
}.

(** The answers of the outside world during one [poll_stat]. *)
Record poll_env : Type := {
  p_time : outcome float;
  p_process_iter : outcome (list process);
  p_write : outcome unit;
  p_flush : outcome unit;
}.

(** The answers of the outside world during [__init__]. *)
Record init_env : Type := {
  i_open : outcome unit;
  i_write : outcome unit;
  i_time : outcome float;
  i_poll : poll_env;
}.

Section WithRepr.
Context {repr : FloatRepr}.

(** [curr_stat[k]] on a [defaultdict(int)]. *)
Definition dd_get (curr_stat : gmap string pynum) (k : string) : pynum :=
  default (PInt 0) (curr_stat !! k).

(** [except (psutil.NoSuchProcess, psutil.AccessDenied)]. *)
Definition gone_or_denied (e : exn) : bool :=
  match e with
  | NoSuchProcess | AccessDenied => true
  | _ => false
  end.

(** The dict [_stat_proc] returns for a process whose four queries
    succeeded. *)
Definition proc_stat (io : pio) (mem_rss : Z) (mem_percent cpu_percent : float)
    : list (string * pynum) :=
  [ ("io.read", PInt (read_count io));
    ("io.write", PInt (write_count io));
    ("io.read.MB", PInt (Z.shiftr (read_bytes io) 20));
    ("io.write.MB", PInt (Z.shiftr (write_bytes io) 20));
    ("mem.rss.MB", PInt (Z.shiftr mem_rss 20));
    ("%MEM", PFloat mem_percent);
    ("%CPU", PFloat cpu_percent) ].

(** [_stat_proc(proc, visited)].  The set [visited] is shared with the
    caller and mutated before anything can raise, so its new value comes
    first, apart from the outcome of the queries. *)
Definition _stat_proc (proc : process) (visited : gset Z)
    : gset Z * M trace (option (list (string * pynum))) :=
  if decide (pid proc ∈ visited) then (visited, ret None)
  else
    ({[pid proc]} ∪ visited,
     try_except
       (io <- call (io_counters proc) ;;
        mem_rss <- call (memory_info_rss proc) ;;
        mem_percent <- call (memory_percent proc) ;;
        cpu_percent <- call (cpu_percent proc) ;;
        ret (Some (proc_stat io mem_rss mem_percent cpu_percent)))
       (λ e, if gone_or_denied e then Some (ret None) else None)).

(** [for key, value in proc_stat.items(): curr_stat[key] += value]. *)
Fixpoint accumulate (proc_stat : list (string * pynum)) (curr_stat : gmap string pynum)
    : gmap string pynum :=
  match proc_stat with
  | [] => curr_stat
  | (key, value) :: rest =>
      accumulate rest (<[key := py_add (dd_get curr_stat key) value]> curr_stat)
  end.

(** [pinfo['pid'] in self.pids or
     any(k in pinfo['name'].lower() for k in self.keywords)]. *)
Definition is_candidate (self : t) (proc : process) : bool :=
  bool_decide (pid proc ∈ pids self)
  || any ((λ k, contains k (lower (name proc))) <$> keywords self).

(** The loop [for proc in psutil.process_iter(...)] over the processes still
    to come, with the current [visited] and [curr_stat]. *)
Fixpoint enumerate (self : t) (procs : list process) (visited : gset Z)
    (curr_stat : gmap string pynum) : M trace (gmap string pynum) :=
  match procs with
  | [] => ret curr_stat
  | proc :: rest =>
      if is_candidate self proc then
        let '(visited', queries) := _stat_proc proc visited in
        curr_stat' <-
          try_except
            (stat <- queries ;;
             match stat with
             | Some (item :: items) => ret (accumulate (item :: items) curr_stat)
             | _ => ret curr_stat
             end)
            (λ e, if gone_or_denied e then Some (ret curr_stat) else None) ;;
        enumerate self rest visited' curr_stat'
      else enumerate self rest visited curr_stat
  end.

(** The text of one row, without the newline. *)
Definition line (timestamp uptime : Z) (curr_stat : gmap string pynum) : string :=
  pretty timestamp +:+ ", " +:+ pretty uptime +:+ ", "
  +:+ join ", " ((λ k, py_str (dd_get curr_stat k)) <$> sorted (BASE_STAT.*1)).

Definition poll_stat (self : t) (env : poll_env) : M trace unit :=
  now <- call (p_time env) ;;
  timestamp <- call (int_of_float now) ;;
  let uptime := timestamp - starttime self in
  procs <- call (p_process_iter env) ;;
  curr_stat <- enumerate self procs ∅ ∅ ;;
  fwrite (outfile self) (line timestamp uptime curr_stat +:+ NL) (p_write env) ;;
  if flush self then fflush (outfile self) (p_flush env) else ret tt.

Definition header : string :=
  "Timestamp, Uptime, " +:+ join ", " (sorted (BASE_STAT.*1)) +:+ NL.

Definition open_outfile (outfile_name : option string) (answer : outcome unit) : M trace sink :=
  match outfile_name with
  | Some (String c s) => fopen (String c s) answer
  | _ => ret Stdout
  end.

Definition __init__ (keywords : list string) (pids : list Z)
    (outfile_name : option string) (flush : bool) (env : init_env) : M trace t :=
  print Stderr "ProcessSet monitor started." ;;
  outfile <- open_outfile outfile_name (i_open env) ;;
  fwrite outfile header (i_write env) ;;
  now <- call (i_time env) ;;
  starttime <- call (int_of_float now) ;;
  let self := {| outfile := outfile; pids := list_to_set pids; keywords := keywords;
                 flush := flush; starttime := starttime |} in
  poll_stat self (i_poll env) ;;
  ret self.

Definition close (self : t) (answer : outcome unit) : M trace unit :=
  (if decide (outfile self = Stdout) then ret tt else fclose (outfile self) answer) ;;
  print Stderr "ProcessSet monitor closed.".

End WithRepr.
End ProcessSetMonitor.

(** ** [sched.scheduler]

    The scheduler of Python's standard library, as [main] uses it: a queue of
    events ordered by fire time, then priority (a lower number first), then
    the order in which they were entered; [run] waits for the first event's
    time on the clock, calls its action, and goes on until the queue is
    empty. *)

Module Sched.

Record event : Type := {
  time : float;
  priority : Z;
  sequence : nat;
  action : monitor;
}.

Record scheduler : Type := {
  queue : list event;
  counter : nat;
}.

Definition empty : scheduler := {| queue := []; counter := 0 |}.

(** The order of the queue: the comparison of the tuples
    [(time, priority, sequence)]. *)
Definition before (a b : event) : bool :=
  if PrimFloat.eqb (time a) (time b) then
    if priority a =? priority b then (sequence a <? sequence b)%nat
    else priority a <? priority b
  else PrimFloat.ltb (time a) (time b).

(** Pushing on the queue, which is kept in order (the library keeps a heap;
    what [run] sees of it is its least element): its first element is the
    next event to run. *)
Fixpoint push (e : event) (q : list event) : list event :=
  match q with
  | [] => [e]
  | x :: q' => if before e x then e :: x :: q' else x :: push e q'
  end.

(** [scheduler.enterabs(time, priority, action, argument)]; the action and
    its argument are named by the monitor they poll. *)
Definition enterabs (s : scheduler) (time : float) (priority : Z) (target : monitor)
    : M trace scheduler :=
  emit (EvEnter time priority target) ;;
  ret {| queue := push {| time := time; priority := priority;
                          sequence := counter s; action := target |} (queue s);
         counter := S (counter s) |}.

(** [time.sleep(delay)]. *)
Definition sleep (delay : float) (answer : outcome unit) : M trace unit :=
  call answer ;; emit (EvSleep delay).

End Sched.

(** ** [main] *)

Module Main.

(** The parsed command line. *)
Record args : Type := {
  ps_pids : option (list Z);
  ps_outfile : string;
  nic : option (list string);
  outfile : option string;
  flush : bool;
  delay : Z;
}.

(** The local variables of [main] that its [finally] clause reads; [None] is
    a name that is not bound yet.  [nm] and [pm] are bound to [None] (Python's)
    when their monitor is disabled. *)
Record frame : Type := {
  rm : option ResMonitor.t;
  enable_nic_mon : option bool;
  nm : option (option NetworkInterfaceMonitor.t);
  enable_ps_mon : option bool;
  pm : option (option ProcessSetMonitor.t);
}.

Definition unbound : frame :=
  {| rm := None; enable_nic_mon := None; nm := None; enable_ps_mon := None; pm := None |}.

(** The state of [main]: its local variables and the trace. *)
Definition state : Type := frame * trace.

(** A computation of a monitor, run inside [main]. *)
Definition lift {A} (m : M trace A) : M state A :=
  λ s, let '(r, tr) := m s.2 in (r, (s.1, tr)).

(** Reading a local variable. *)
Definition load {A} (var : string) (get : frame → option A) : M state A :=
  λ s, match get s.1 with
       | Some v => (Ok v, s)
       | None => (Raise (UnboundLocalError var), s)
       end.

(** Binding a local variable. *)
Definition store (set : frame → frame) : M state unit :=
  λ s, (Ok tt, (set s.1, s.2)).

Definition set_rm (v : ResMonitor.t) (f : frame) : frame :=
  {| rm := Some v; enable_nic_mon := enable_nic_mon f; nm := nm f;
     enable_ps_mon := enable_ps_mon f; pm := pm f |}.
Definition set_enable_nic_mon (v : bool) (f : frame) : frame :=
  {| rm := rm f; enable_nic_mon := Some v; nm := nm f;
     enable_ps_mon := enable_ps_mon f; pm := pm f |}.
Definition set_nm (v : option NetworkInterfaceMonitor.t) (f : frame) : frame :=
  {| rm := rm f; enable_nic_mon := enable_nic_mon f; nm := Some v;
     enable_ps_mon := enable_ps_mon f; pm := pm f |}.
Definition set_enable_ps_mon (v : bool) (f : frame) : frame :=
  {| rm := rm f; enable_nic_mon := enable_nic_mon f; nm := nm f;
     enable_ps_mon := Some v; pm := pm f |}.
Definition set_pm (v : option ProcessSetMonitor.t) (f : frame) : frame :=
  {| rm := rm f; enable_nic_mon := enable_nic_mon f; nm := nm f;
     enable_ps_mon := enable_ps_mon f; pm := Some v |}.

(** The answers of the outside world during one tick of the loop: the polls,
    and the clock readings and sleeps of [scheduler.run()], numbered by its
    iterations. *)
Record tick_env : Type := {
  t_res : ResMonitor.poll_env;
  t_nic : NetworkInterfaceMonitor.poll_env;
  t_ps : ProcessSetMonitor.poll_env;
  t_time : nat → outcome float;
  t_sleep : nat → outcome unit;
}.

(** The answers of the outside world during a run of [main]. *)
Record env : Type := {
  e_nice : outcome unit;
  e_res_init : ResMonitor.init_env;
  e_nic_init : NetworkInterfaceMonitor.init_env;
  e_ps_init : ProcessSetMonitor.init_env;
  e_time : outcome float;
  e_tick : nat → tick_env;
  e_res_close : outcome unit;
  e_nic_close : string → outcome unit;
  e_ps_close : outcome unit;
}.

Section WithRepr.
Context {repr : FloatRepr}.

(** [except Exception]: every exception of the model but
    [KeyboardInterrupt]. *)
Definition is_Exception (e : exn) : bool :=
  match e with
  | KeyboardInterrupt => false
  | _ => true
  end.

Definition chprio (answer : outcome unit) : M trace unit :=
  try_except (call answer)
    (λ e, if is_Exception e
          then Some (print Stderr "Warning: failed to elevate priority!")
          else None).

(** An attribute access or method call on a variable that may hold [None]. *)
Definition not_None {A} (v : option A) : M state A :=
  match v with
  | Some a => ret a
  | None => raise (OtherError "AttributeError")
  end.

(** The action of a scheduled event: [poll_stat] of the monitor it was
    entered with.  The monitor is the object the local variable names, and
    the poll updates it in place. *)
Definition run_action (target : monitor) (e : tick_env) : M state unit :=
  match target with
  | Res =>
      self <- load "rm" rm ;;
      self' <- lift (ResMonitor.poll_stat self (t_res e)) ;;
      store (set_rm self')
  | Nic =>
      v <- load "nm" nm ;;
      self <- not_None v ;;
      self' <- lift (NetworkInterfaceMonitor.poll_stat self (t_nic e)) ;;
      store (set_nm (Some self'))
  | Ps =>
      v <- load "pm" pm ;;
      self <- not_None v ;;
      lift (ProcessSetMonitor.poll_stat self (t_ps e))
  end.

(** [scheduler.run()] on the queue [q], from its iteration [k] on.  Each
    iteration reads the clock; it sleeps when the first event is not due,
    and otherwise takes the event off the queue and calls its action. *)
Fixpoint run (fuel : nat) (e : tick_env) (k : nat) (q : list Sched.event) : M state unit :=
  match fuel with
  | O => call Diverge
  | S fuel' =>
      match q with
      | [] => ret tt
      | ev :: q' =>
          now <- call (t_time e k) ;;
          if PrimFloat.ltb now (Sched.time ev) then
            lift (Sched.sleep (Sched.time ev - now)%float (t_sleep e k)) ;;
            run fuel' e (S k) q
          else
            lift (emit (EvRun (Sched.action ev))) ;;
            run_action (Sched.action ev) e ;;
            lift (emit (EvDone (Sched.action ev))) ;;
            lift (Sched.sleep 0%float (t_sleep e k)) ;;
            run fuel' e (S k) q'
      end
  end.

(** The fire time of tick [i]: [starttime + i * args.delay]. *)
Definition fire_time (starttime : float) (i : Z) (a : args) : float :=
  (starttime + float_of_int (i * delay a))%float.

(** The three [enterabs] calls of one tick. *)
Definition schedule_tick (a : args) (s : Sched.scheduler) (starttime : float) (i : Z)
    : M state Sched.scheduler :=
  s <- lift (Sched.enterabs s (fire_time starttime i a) 2 Res) ;;
  nic_on <- load "enable_nic_mon" enable_nic_mon ;;
  s <- (if nic_on : bool
        then lift (Sched.enterabs s (fire_time starttime i a) 1 Nic) else ret s) ;;
  ps_on <- load "enable_ps_mon" enable_ps_mon ;;
  if ps_on : bool
  then lift (Sched.enterabs s (fire_time starttime i a) 0 Ps) else ret s.

(** The body of [while True], short of [i += 1]: the events of tick [i] are
    entered, and [scheduler.run()] runs until the queue is empty again. *)
Definition tick (fuel : nat) (a : args) (e : env) (s : Sched.scheduler)
    (starttime : float) (i : Z) : M state Sched.scheduler :=
  s <- schedule_tick a s starttime i ;;
  run fuel (e_tick e (Z.to_nat i)) 0 (Sched.queue s) ;;
  ret {| Sched.queue := []; Sched.counter := Sched.counter s |}.

(** [while True: ...] from tick [i] on; [fuel] bounds the number of ticks and
    the number of iterations of each [scheduler.run()]. *)
Fixpoint loop (fuel : nat) (a : args) (e : env) (s : Sched.scheduler)
    (starttime : float) (i : Z) : M state unit :=
  match fuel with
  | O => call Diverge
  | S fuel' =>
      s <- tick fuel a e s starttime i ;;
      loop fuel' a e s starttime (i + 1)
  end.

(** The body of the [try] statement, up to the loop: the monitors are
    constructed and bound. *)
Definition startup (a : args) (e : env) : M state unit :=
  let ps_pids := default [] (ps_pids a) in
  lift (chprio (e_nice e)) ;;
  self <- lift (ResMonitor.__init__ (outfile a) (flush a) (e_res_init e)) ;;
  store (set_rm self) ;;
  let nic_on := bool_decide (nic a ≠ None) in
  store (set_enable_nic_mon nic_on) ;;
  v <- (if nic_on
        then self <- lift (NetworkInterfaceMonitor.__init__
                             NetworkInterfaceMonitor.default_pattern
                             (nic a) (flush a) (e_nic_init e)) ;;
             ret (Some self)
        else ret None) ;;
  store (set_nm v) ;;
  let ps_on := bool_decide (0 < size (list_to_set ps_pids : gset Z))%nat in
  store (set_enable_ps_mon ps_on) ;;
  v <- (if ps_on
        then self <- lift (ProcessSetMonitor.__init__ [] ps_pids
                             (Some (ps_outfile a)) (flush a) (e_ps_init e)) ;;
             ret (Some self)
        else ret None) ;;
  store (set_pm v).

(** The body of the [try] statement. *)
Definition startup_and_loop (fuel : nat) (a : args) (e : env) : M state unit :=
  startup a e ;;
  starttime <- call (e_time e) ;;
  loop fuel a e Sched.empty starttime 1.

(** The [finally] clause. *)
Definition cleanup (e : env) : M state unit :=
  self <- load "rm" rm ;;
  lift (ResMonitor.close self (e_res_close e)) ;;
  nic_on <- load "enable_nic_mon" enable_nic_mon ;;
  (if nic_on : bool
   then v <- load "nm" nm ;;
        self <- not_None v ;;
        lift (NetworkInterfaceMonitor.close self (e_nic_close e))
   else ret tt) ;;
  ps_on <- load "enable_ps_mon" enable_ps_mon ;;
  if ps_on : bool
  then v <- load "pm" pm ;;
       self <- not_None v ;;
       lift (ProcessSetMonitor.close self (e_ps_close e))
  else ret tt.

Definition main (fuel : nat) (a : args) (e : env) : M state unit :=
  try_finally
    (try_except (startup_and_loop fuel a e)
       (λ x, match x with
             | KeyboardInterrupt =>
                 Some (lift (print Stdout "Monitoring interrupted. Exiting."))
             | _ => None
             end))
    (cleanup e).

(** The exit status of the script, whose last statement is [main()]: 0 when
    [main] returns, 1 when an exception leaves it (the interpreter prints the
    traceback); there is none while it runs. *)
Definition exit_status (r : outcome unit) : option Z :=
  match r with
  | Ok _ => Some 0
  | Raise _ => Some 1
  | Diverge => None
  end.

(** A run of the script from the start. *)
Definition run_script (fuel : nat) (a : args) (e : env) : outcome unit * state :=
  main fuel a e (unbound, []).

End WithRepr.
End Main.

(** ** The process group, described without the loop

    A poll of [ProcessSetMonitor] is compared below with this description of
    it: the processes that count are the candidates, each process identifier
    once, at its first occurrence in the enumeration; each of them adds what
    its four queries return, or nothing when one of them finds the process
    gone or out of reach. *)

Module ProcessGroup.
Import ProcessSetMonitor.

(** The four queries of [_stat_proc] on one process, in their order: the
    dict of the process, or the first failure. *)
Definition queries (proc : process) : outcome (list (string * pynum)) :=
  match io_counters proc with
  | Ok io =>
      match memory_info_rss proc with
      | Ok mem_rss =>
          match memory_percent proc with
          | Ok mem_percent =>
              match cpu_percent proc with
              | Ok cpu_percent => Ok (proc_stat io mem_rss mem_percent cpu_percent)
              | Raise e => Raise e
              | Diverge => Diverge
              end
          | Raise e => Raise e
          | Diverge => Diverge
          end
      | Raise e => Raise e
      | Diverge => Diverge
      end
  | Raise e => Raise e
  | Diverge => Diverge
  end.

(** Each process identifier once, at its first occurrence. *)
Fixpoint dedup_pid (procs : list process) : list process :=
  match procs with
  | [] => []
  | p :: rest => p :: filter (λ q, pid q ≠ pid p) (dedup_pid rest)
  end.

(** The processes one poll counts. *)
Definition counted (self : t) (procs : list process) : list process :=
  dedup_pid (filter (λ p, is_candidate self p) procs).

(** The sum of what the processes of [procs] return, on top of [curr_stat]:
    a process that is gone or out of reach adds nothing, any other failure
    ends the sum. *)
Fixpoint tally (procs : list process) (curr_stat : gmap string pynum)
    : outcome (gmap string pynum) :=
  match procs with
  | [] => Ok curr_stat
  | p :: rest =>
      match queries p with
      | Ok d => tally rest (accumulate d curr_stat)
      | Raise e => if gone_or_denied e then tally rest curr_stat else Raise e
      | Diverge => Diverge
      end
  end.

(** A process whose queries succeed, or fail in one of the two tolerated
    ways. *)
Definition tolerable (proc : process) : bool :=
  match queries proc with
  | Ok _ => true
  | Raise e => gone_or_denied e
  | Diverge => false
  end.

(** What a process adds to the sum. *)
Definition contribution (proc : process) (curr_stat : gmap string pynum)
    : gmap string pynum :=
  match queries proc with
  | Ok d => accumulate d curr_stat
  | _ => curr_stat
  end.

End ProcessGroup.

(** ** What a trace shows of the scheduler *)

(** The events that record the scheduler at work, as opposed to input and
    output. *)
Definition is_sched (e : event) : bool :=
  match e with
  | EvEnter _ _ _ | EvRun _ | EvDone _ => true
  | _ => false
  end.

(** The events entered with [enterabs], in order: fire time, priority and
    target. *)
Definition entered (tr : trace) : list (float * Z * monitor) :=
  omap (λ e, match e with EvEnter t p m => Some (t, p, m) | _ => None end) tr.

Definition is_run (e : event) : bool :=
  match e with
  | EvRun _ | EvDone _ => true
  | _ => false
  end.

(** The calls and returns of actions, in order. *)
Definition ran (tr : trace) : list event := filter is_run tr.

(** The events tick [i] enters when the network and process-set monitors are
    enabled as [nic_on] and [ps_on] say. *)
Definition tick_entries (a : Main.args) (starttime : float) (nic_on ps_on : bool) (i : Z)
    : list (float * Z * monitor) :=
  (Main.fire_time starttime i a, 2, Res)
  :: (if nic_on then [(Main.fire_time starttime i a, 1, Nic)] else [])
  ++ (if ps_on then [(Main.fire_time starttime i a, 0, Ps)] else []).

(** The ticks [i], [i + 1], ..., [n] of them. *)
Definition ticks (i : Z) (n : nat) : list Z := (λ k, i + Z.of_nat k) <$> seq 0 n.

(** The order in which the polls of one tick are to run. *)
Definition tick_order (nic_on ps_on : bool) : list monitor :=
  (if ps_on then [Ps] else []) ++ (if nic_on then [Nic] else []) ++ [Res].

(** The actions of [targets] called one after the other, each returning
    before the next is called. *)
Definition calls (targets : list monitor) : list event :=
  concat ((λ m, [EvRun m; EvDone m]) <$> targets).

(** [args.nic is not None] and [len(args.ps_pids) > 0]. *)
Definition nic_enabled (a : Main.args) : bool := bool_decide (Main.nic a ≠ None).
Definition ps_enabled (a : Main.args) : bool :=
  bool_decide (0 < size (list_to_set (default [] (Main.ps_pids a)) : gset Z))%nat.

(** ** Vocabulary of the properties *)

(** [respects R m]: whichever way [m] ends, the state it leaves is related
    by [R] to the state it started in. *)
Definition respects {S A} (R : relation S) (m : M S A) : Prop :=
  ∀ s r s', m s = (r, s') → R s s'.

(** The traces that extend a trace by events of one kind. *)
Definition extends_by (P : event → Prop) : relation trace :=
  λ tr tr', ∃ es, tr' = tr ++ es ∧ Forall P es.

(** Input and output only: no event of the scheduler. *)
Definition io_only : relation trace := extends_by (λ e, is_sched e = false).

(** No [enterabs]. *)
Definition no_enter : relation trace :=
  extends_by (λ e, match e with EvEnter _ _ _ => False | _ => True end).

(** A relation between the states of [main], from one between frames and
    one between traces. *)
Definition on_state (Rf : relation Main.frame) (Rt : relation trace) : relation Main.state :=
  λ s s', Rf s.1 s'.1 ∧ Rt s.2 s'.2.

(** Any change of the local variables. *)
Definition any_frame : relation Main.frame := λ _ _, True.

(** The two flags are bound as they were. *)
Definition same_flags : relation Main.frame :=
  λ f f', Main.enable_nic_mon f' = Main.enable_nic_mon f
          ∧ Main.enable_ps_mon f' = Main.enable_ps_mon f.

(** [sum(percpu_percent)], the aggregate the monitor does not compute. *)
Definition sum_percpu (percpu_percent : list float) : float :=
  fold_left PrimFloat.add percpu_percent (float_of_int 0).


(** The files opened and closed, in order. *)
Definition is_file_event (e : event) : bool :=
  match e with
  | EvOpen _ _ | EvClose _ => true
  | _ => false
  end.
Definition file_events (tr : trace) : list event := filter is_file_event tr.

(** What was printed on a standard stream. *)
Definition printed (out : sink) (tr : trace) : list string :=
  omap (λ e, match e with
             | EvWrite o text => if decide (o = out) then Some text else None
             | _ => None
             end) tr.


Module NetworkRows.
Import NetworkInterfaceMonitor.

(** The events one interface adds to the trace in a poll: its row, computed
    from its own entries of the two mappings, on its own file. *)
Definition nic_row (self : t) (timestamp : Z) (net_stat : gmap string snetio)
    (item : string * sink) (events : list event) : Prop :=
  ∃ curr_stat prevstat,
    net_stat !! item.1 = Some curr_stat
    ∧ prev_stat self !! item.1 = Some prevstat
    ∧ events = EvWrite item.2
                 (line timestamp (timestamp - starttime self) item.1 curr_stat prevstat)
               :: (if flush self then [EvFlush item.2] else []).

(** The number of files opened so far. *)
Definition opened (tr : trace) : nat := length (filter is_open tr).

(** The dict of log files under construction: one entry per name, and the
    files are different objects, all opened already. *)
Definition files_ok (d : list (string * sink)) (tr : trace) : Prop :=
  NoDup d.*1 ∧ NoDup d.*2
  ∧ ∀ f, f ∈ d.*2 → ∃ fd, f = File fd ∧ (fd < opened tr)%nat.

End NetworkRows.

(** ** Example data

    The values the worked examples below are run on.  [binary_repr] renders a
    float by its sign, mantissa and binary exponent; it stands in for Python's
    [repr] where an example has to be run, and no property depends on it. *)

Definition binary_repr : FloatRepr :=
  λ x, match Prim2SF x with
       | S754_zero s => if s then "-0.0" else "0.0"
       | S754_infinity s => if s then "-inf" else "inf"
       | S754_nan => "nan"
       | S754_finite s m e =>
           (if s then "-" else "") +:+ pretty (Z.pos m) +:+ "*2^" +:+ pretty e
       end.

Module Examples.

(** The disk snapshots of the scenario. *)
Definition disk_before : ResMonitor.sdiskio :=
  {| ResMonitor.read_count := 10; ResMonitor.write_count := 5;
     ResMonitor.read_bytes := 1048576; ResMonitor.write_bytes := 0;
     ResMonitor.read_time := 100; ResMonitor.write_time := 0 |}.

Definition disk_after : ResMonitor.sdiskio :=
  {| ResMonitor.read_count := 12; ResMonitor.write_count := 5;
     ResMonitor.read_bytes := 3145728; ResMonitor.write_bytes := 0;
     ResMonitor.read_time := 150; ResMonitor.write_time := 0 |}.

Definition mem : ResMonitor.svmem :=
  {| ResMonitor.vm_percent := 12.5%float; ResMonitor.vm_total := 8589934592;
     ResMonitor.vm_used := 1073741824; ResMonitor.vm_available := 7516192768;
     ResMonitor.vm_free := 6442450944 |}.

Definition swap : ResMonitor.sswap :=
  {| ResMonitor.sw_percent := 0%float; ResMonitor.sw_total := 2147483648;
     ResMonitor.sw_used := 0; ResMonitor.sw_free := 2147483648 |}.

(** A two-core [ResMonitor] writing to standard output, started at second
    1000, with no disk activity seen yet. *)
Definition res_monitor : ResMonitor.t :=
  {| ResMonitor.ncores := 2; ResMonitor.outfile := Stdout; ResMonitor.flush := false;
     ResMonitor.prev_disk_stat :=
       {| ResMonitor.read_count := 0; ResMonitor.write_count := 0;
          ResMonitor.read_bytes := 0; ResMonitor.write_bytes := 0;
          ResMonitor.read_time := 0; ResMonitor.write_time := 0 |};
     ResMonitor.starttime := 1000 |}.

(** The world during a poll at clock reading [now] that finds the disk
    counters [disk]; the per-core loads do not add up to twice the
    whole-system load. *)
Definition res_poll (now : float) (disk : ResMonitor.sdiskio) : ResMonitor.poll_env :=
  {| ResMonitor.p_time := Ok now;
     ResMonitor.p_cpu_percent := Ok 50%float;
     ResMonitor.p_percpu_percent := Ok [10%float; 20%float];
     ResMonitor.p_virtual_memory := Ok mem;
     ResMonitor.p_swap_memory := Ok swap;
     ResMonitor.p_disk_io_counters := Ok disk;
     ResMonitor.p_write := Ok tt;
     ResMonitor.p_flush := Ok tt |}.

Definition res_init : ResMonitor.init_env :=
  {| ResMonitor.i_cpu_count := Ok 2;
     ResMonitor.i_open := Ok tt;
     ResMonitor.i_disk_io_counters := Ok disk_before;
     ResMonitor.i_time := Ok 1000%float;
     ResMonitor.i_write := Ok tt |}.

(** Two polls in a row, five seconds apart: the first finds [disk_before],
    the second [disk_after]. *)
Definition res_run1 : outcome ResMonitor.t * trace :=
  Eval vm_compute in
    ResMonitor.poll_stat (repr := binary_repr) res_monitor (res_poll 1005%float disk_before) [].

Definition res_monitor1 : ResMonitor.t :=
  ResMonitor.set_prev_disk_stat res_monitor disk_before.

Definition res_run2 : outcome ResMonitor.t * trace :=
  Eval vm_compute in
    ResMonitor.poll_stat (repr := binary_repr) res_monitor1 (res_poll 1010%float disk_after)
      res_run1.2.

Definition res_monitor2 : ResMonitor.t :=
  ResMonitor.set_prev_disk_stat res_monitor1 disk_after.

(** A process-set monitor for process 4242 and the keyword [java], and five
    entries of an enumeration: a process that matches both rules, one that
    matches neither, one that matches the keyword, the first one again, and
    one that is gone when its memory is queried. *)
Definition ps_monitor : ProcessSetMonitor.t :=
  {| ProcessSetMonitor.outfile := File 1;
     ProcessSetMonitor.pids := {[ 4242 ]};
     ProcessSetMonitor.keywords := ["java"];
     ProcessSetMonitor.flush := true;
     ProcessSetMonitor.starttime := 1000 |}.

Definition proc (pid : Z) (name : string) (reads : Z) (rss : outcome Z)
    : ProcessSetMonitor.process :=
  {| ProcessSetMonitor.pid := pid;
     ProcessSetMonitor.name := name;
     ProcessSetMonitor.io_counters :=
       Ok {| ProcessSetMonitor.read_count := reads;
             ProcessSetMonitor.write_count := 1;
             ProcessSetMonitor.read_bytes := 5242880;
             ProcessSetMonitor.write_bytes := 1048576 |};
     ProcessSetMonitor.memory_info_rss := rss;
     ProcessSetMonitor.memory_percent := Ok 1.5%float;
     ProcessSetMonitor.cpu_percent := Ok 2.5%float |}.

Definition p_both : ProcessSetMonitor.process := proc 4242 "Java" 3 (Ok 10485760).
Definition p_none : ProcessSetMonitor.process := proc 1 "init" 100 (Ok 0).
Definition p_keyword : ProcessSetMonitor.process := proc 7 "OpenJDK-java" 7 (Ok 20971520).
Definition p_gone : ProcessSetMonitor.process := proc 9 "javac" 50 (Raise NoSuchProcess).

Definition ps_poll (procs : list ProcessSetMonitor.process) : ProcessSetMonitor.poll_env :=
  {| ProcessSetMonitor.p_time := Ok 1005%float;
     ProcessSetMonitor.p_process_iter := Ok procs;
     ProcessSetMonitor.p_write := Ok tt;
     ProcessSetMonitor.p_flush := Ok tt |}.

Definition ps_procs : list ProcessSetMonitor.process :=
  [p_both; p_none; p_keyword; p_both; p_gone].

Definition ps_run : outcome unit * trace :=
  Eval vm_compute in
    ProcessSetMonitor.poll_stat (repr := binary_repr) ps_monitor (ps_poll ps_procs) [].


(** The counters of [eth0] in the scenario. *)
Definition eth0_before : NetworkInterfaceMonitor.snetio :=
  {| NetworkInterfaceMonitor.bytes_sent := 1048576;
     NetworkInterfaceMonitor.bytes_recv := 2097152;
     NetworkInterfaceMonitor.packets_sent := 10;
     NetworkInterfaceMonitor.packets_recv := 20;
     NetworkInterfaceMonitor.errin := 0; NetworkInterfaceMonitor.errout := 0;
     NetworkInterfaceMonitor.dropin := 0; NetworkInterfaceMonitor.dropout := 0 |}.

Definition eth0_after : NetworkInterfaceMonitor.snetio :=
  {| NetworkInterfaceMonitor.bytes_sent := 2097152;
     NetworkInterfaceMonitor.bytes_recv := 3145728;
     NetworkInterfaceMonitor.packets_sent := 15;
     NetworkInterfaceMonitor.packets_recv := 25;
     NetworkInterfaceMonitor.errin := 0; NetworkInterfaceMonitor.errout := 0;
     NetworkInterfaceMonitor.dropin := 0; NetworkInterfaceMonitor.dropout := 0 |}.

(** The counters of the loopback interface, which stay as they are. *)
Definition lo_stat : NetworkInterfaceMonitor.snetio :=
  {| NetworkInterfaceMonitor.bytes_sent := 4096;
     NetworkInterfaceMonitor.bytes_recv := 4096;
     NetworkInterfaceMonitor.packets_sent := 8;
     NetworkInterfaceMonitor.packets_recv := 8;
     NetworkInterfaceMonitor.errin := 0; NetworkInterfaceMonitor.errout := 0;
     NetworkInterfaceMonitor.dropin := 0; NetworkInterfaceMonitor.dropout := 0 |}.

(** A monitor of [eth0] and [lo] that has retained [eth0_before]. *)
Definition nic_monitor : NetworkInterfaceMonitor.t :=
  {| NetworkInterfaceMonitor.nic_files := [("eth0", File 0); ("lo", File 1)];
     NetworkInterfaceMonitor.prev_stat := {[ "eth0" := eth0_before; "lo" := lo_stat ]};
     NetworkInterfaceMonitor.starttime := 1000;
     NetworkInterfaceMonitor.flush := false |}.

(** The world during a poll at clock reading [now] that finds the counters
    [eth0] on [eth0]; the host has a third interface the monitor was not
    asked about. *)
Definition nic_poll (now : float) (eth0 : NetworkInterfaceMonitor.snetio)
    : NetworkInterfaceMonitor.poll_env :=
  {| NetworkInterfaceMonitor.p_time := Ok now;
     NetworkInterfaceMonitor.p_net_io_counters :=
       Ok {[ "eth0" := eth0; "lo" := lo_stat; "wlan0" := lo_stat ]};
     NetworkInterfaceMonitor.p_write := λ _, Ok tt;
     NetworkInterfaceMonitor.p_flush := λ _, Ok tt |}.

Definition nic_run : outcome NetworkInterfaceMonitor.t * trace :=
  Eval vm_compute in
    NetworkInterfaceMonitor.poll_stat nic_monitor (nic_poll 1005%float eth0_after) [].

(** The world during the construction of a monitor, on a host with the
    interfaces [existing]. *)
Definition nic_init (existing : list string) : NetworkInterfaceMonitor.init_env :=
  {| NetworkInterfaceMonitor.i_net_if_stats := Ok (list_to_set existing);
     NetworkInterfaceMonitor.i_open := λ _, Ok tt;
     NetworkInterfaceMonitor.i_write := λ _, Ok tt;
     NetworkInterfaceMonitor.i_net_io_counters :=
       Ok {[ "eth0" := eth0_before; "lo" := lo_stat; "wlan0" := lo_stat ]};
     NetworkInterfaceMonitor.i_time := Ok 1000%float;
     NetworkInterfaceMonitor.i_poll := nic_poll 1000%float eth0_before |}.


(** The command line [--nic eth0 bogus0 lo --ps-pids 4242] (no [--outfile],
    no [--flush], the default delay of 5 seconds) on a host with the
    interfaces [eth0], [lo] and [wlan0]. *)
Definition main_args : Main.args :=
  {| Main.ps_pids := Some [4242];
     Main.ps_outfile := "resprofile.csv";
     Main.nic := Some ["eth0"; "bogus0"; "lo"];
     Main.outfile := None;
     Main.flush := false;
     Main.delay := 5 |}.

Definition ps_init : ProcessSetMonitor.init_env :=
  {| ProcessSetMonitor.i_open := Ok tt;
     ProcessSetMonitor.i_write := Ok tt;
     ProcessSetMonitor.i_time := Ok 1000%float;
     ProcessSetMonitor.i_poll := ps_poll ps_procs |}.

(** A poll of the resource monitor during which Ctrl-C arrives. *)
Definition res_poll_interrupted : ResMonitor.poll_env :=
  {| ResMonitor.p_time := Ok 1030%float;
     ResMonitor.p_cpu_percent := Ok 50%float;
     ResMonitor.p_percpu_percent := Ok [10%float; 20%float];
     ResMonitor.p_virtual_memory := Raise KeyboardInterrupt;
     ResMonitor.p_swap_memory := Ok swap;
     ResMonitor.p_disk_io_counters := Ok disk_after;
     ResMonitor.p_write := Ok tt;
     ResMonitor.p_flush := Ok tt |}.

(** The ticks of a run in which every poll is late: the clock reads 1030
    whenever the scheduler looks at it, so that no tick waits; Ctrl-C arrives
    during the resource poll of tick [stop]. *)
Definition late_tick (stop n : nat) : Main.tick_env :=
  {| Main.t_res := if (n =? stop)%nat then res_poll_interrupted
                   else res_poll 1030%float disk_after;
     Main.t_nic := nic_poll 1030%float eth0_after;
     Main.t_ps := ps_poll ps_procs;
     Main.t_time := λ _, Ok 1030%float;
     Main.t_sleep := λ _, Ok tt |}.

(** The world of a run: the process may not raise its priority; the network
    monitor is constructed in the world [nic]. *)
Definition main_env (nic : NetworkInterfaceMonitor.init_env) (stop : nat) : Main.env :=
  {| Main.e_nice := Raise AccessDenied;
     Main.e_res_init := res_init;
     Main.e_nic_init := nic;
     Main.e_ps_init := ps_init;
     Main.e_time := Ok 1000%float;
     Main.e_tick := late_tick stop;
     Main.e_res_close := Ok tt;
     Main.e_nic_close := λ _, Ok tt;
     Main.e_ps_close := Ok tt |}.

(** A run that Ctrl-C ends during the resource poll of tick 4. *)
Definition late_run : outcome unit * Main.state :=
  Eval vm_compute in
    Main.run_script (repr := binary_repr) 10 main_args
      (main_env (nic_init ["eth0"; "lo"; "wlan0"]) 4).

(** The construction of the network monitor during which Ctrl-C arrives:
    the log files are open, and the first poll is under way. *)
Definition nic_init_interrupted : NetworkInterfaceMonitor.init_env :=
  {| NetworkInterfaceMonitor.i_net_if_stats := Ok (list_to_set ["eth0"; "lo"; "wlan0"]);
     NetworkInterfaceMonitor.i_open := λ _, Ok tt;
     NetworkInterfaceMonitor.i_write := λ _, Ok tt;
     NetworkInterfaceMonitor.i_net_io_counters :=
       Ok {[ "eth0" := eth0_before; "lo" := lo_stat; "wlan0" := lo_stat ]};
     NetworkInterfaceMonitor.i_time := Ok 1000%float;
     NetworkInterfaceMonitor.i_poll :=
       {| NetworkInterfaceMonitor.p_time := Ok 1000%float;
          NetworkInterfaceMonitor.p_net_io_counters := Raise KeyboardInterrupt;
          NetworkInterfaceMonitor.p_write := λ _, Ok tt;
          NetworkInterfaceMonitor.p_flush := λ _, Ok tt |} |}.

Definition interrupted_startup : outcome unit * Main.state :=
  Eval vm_compute in
    Main.run_script (repr := binary_repr) 10 main_args (main_env nic_init_interrupted 4).

(** The command line [--nic bogus0 bogus1], which names no interface of the
    host. *)
Definition bogus_args : Main.args :=
  {| Main.ps_pids := None;
     Main.ps_outfile := "resprofile.csv";
     Main.nic := Some ["bogus0"; "bogus1"];
     Main.outfile := None;
     Main.flush := false;
     Main.delay := 5 |}.

Definition bogus_run : outcome unit * Main.state :=
  Eval vm_compute in
    Main.run_script (repr := binary_repr) 10 bogus_args
      (main_env (nic_init ["eth0"; "lo"; "wlan0"]) 4).

End Examples.

(** * Properties of the embedding *)

(** ** The monad *)

Section MonadFacts.
Context {S : Type}.

Lemma bind_Ok {A B} (m : M S A) (k : A → M S B) s a s1 :
  m s = (Ok a, s1) → (x <- m ;; k x) s = k a s1.
Proof. intros Hm. unfold bind. by rewrite Hm. Qed.

Lemma bind_Raise {A B} (m : M S A) (k : A → M S B) s e s1 :
  m s = (Raise e, s1) → (x <- m ;; k x) s = (Raise e, s1).
Proof. intros Hm. unfold bind. by rewrite Hm. Qed.

Lemma bind_Diverge {A B} (m : M S A) (k : A → M S B) s s1 :
  m s = (Diverge, s1) → (x <- m ;; k x) s = (Diverge, s1).
Proof. intros Hm. unfold bind. by rewrite Hm. Qed.

(** A sequence ends in one of three ways. *)
Lemma bind_inv {A B} (m : M S A) (k : A → M S B) s r s' :
  (x <- m ;; k x) s = (r, s') →
  (∃ a s1, m s = (Ok a, s1) ∧ k a s1 = (r, s'))
  ∨ (∃ e, m s = (Raise e, s') ∧ r = Raise e)
  ∨ (m s = (Diverge, s') ∧ r = Diverge).
Proof.
  unfold bind. destruct (m s) as [[a|e|] s1]; intros Hk.
  - left. eauto.
  - right. left. exists e. by inversion Hk.
  - right. right. by inversion Hk.
Qed.

Lemma bind_Ok_inv {A B} (m : M S A) (k : A → M S B) s b s' :
  (x <- m ;; k x) s = (Ok b, s') →
  ∃ a s1, m s = (Ok a, s1) ∧ k a s1 = (Ok b, s').
Proof.
  intros Hk. apply bind_inv in Hk as [Hk|[(e & _ & ?)|[_ ?]]]; done.
Qed.

Lemma call_inv {A} (r0 : outcome A) (s : S) r s' :
  call r0 s = (r, s') → r = r0 ∧ s' = s.
Proof. unfold call. by inversion 1. Qed.

End MonadFacts.

Lemma string_app_assoc (a b c : string) : a +:+ b +:+ c = (a +:+ b) +:+ c.
Proof.
  induction a as [|x a IH]; [done|].
  change (String x (a +:+ b +:+ c) = String x ((a +:+ b) +:+ c)). by rewrite IH.
Qed.

(** Destructs the answers a computation depends on, one after the other,
    keeping the branches in which the hypothesis [H] about its result is not
    absurd. *)
Ltac case_answers H :=
  repeat match type of H with
    | context [match ?r with Ok _ => _ | Raise _ => _ | Diverge => _ end] =>
        destruct r eqn:?; cbn in H; try discriminate H
    end.

Section ResMonitorFacts.
Context {repr : FloatRepr}.
Import ResMonitor.

(** What a poll that returns has done: every call was answered, the row
    computed from the answers and the retained snapshot was written to the
    monitor's sink, and the snapshot of this poll is the retained one in the
    object returned. *)
Lemma res_poll_Ok_inv self env tr self' tr' :
  poll_stat self env tr = (Ok self', tr') →
  ∃ now timestamp total percpu mem swap disk,
    p_time env = Ok now ∧ int_of_float now = Ok timestamp
    ∧ p_cpu_percent env = Ok total ∧ p_percpu_percent env = Ok percpu
    ∧ p_virtual_memory env = Ok mem ∧ p_swap_memory env = Ok swap
    ∧ p_disk_io_counters env = Ok disk
    ∧ p_write env = Ok tt
    ∧ tr' = tr ++ EvWrite (outfile self)
                    (line self timestamp (timestamp - starttime self) total percpu
                       mem swap disk +:+ NL)
                  :: (if flush self then [EvFlush (outfile self)] else [])
    ∧ self' = set_prev_disk_stat self disk.
Proof.
  intros Hp. unfold poll_stat, fwrite, fflush, bind, call, ret, emit in Hp.
  destruct (flush self) eqn:Hfl; cbn in Hp; case_answers Hp;
    inversion Hp; subst; clear Hp;
    repeat match goal with u : unit |- _ => destruct u end;
    eexists _, _, _, _, _, _, _; repeat split; try eassumption;
    by rewrite <- ?app_assoc.
Qed.

End ResMonitorFacts.

Section ResMonitorClaims.
Context {repr : FloatRepr}.
Import ResMonitor.

(** A poll whose write fails raises (or hangs), writes nothing, and returns
    no object: the caller's monitor keeps the snapshot it had. *)
Lemma res_poll_write_fails self env tr e r tr' :
  p_write env = Raise e →
  poll_stat self env tr = (r, tr') →
  tr' = tr ∧ ∀ self', r ≠ Ok self'.
Proof.
  intros Hw Hp. unfold poll_stat, fwrite, fflush, bind, call, ret, emit in Hp.
  rewrite Hw in Hp. cbn in Hp.
  repeat match type of Hp with
    | context [match ?r with Ok _ => _ | Raise _ => _ | Diverge => _ end] =>
        destruct r eqn:?; cbn in Hp
    end; by inversion Hp.
Qed.

(** The row ends with the six disk cells. *)
Lemma res_line_disk_cells self timestamp uptime total percpu mem swap disk :
  ∃ head,
    line self timestamp uptime total percpu mem swap disk
    = head +:+ ", " +:+ join ", " (pretty <$> disk_cells self disk).
Proof.
  unfold line. rewrite !string_app_assoc. eexists.
  symmetry. apply string_app_assoc.
Qed.

(** C1.  Two consecutive polls of a [ResMonitor] that return: the first one
    writes its row and retains the disk snapshot [d1] it read; the second one
    reads [d2] and writes a row whose six disk cells ([io.read], [io.write],
    [io.read.MB], [io.write.MB], [io.read.ms], [io.write.ms]) are the
    differences of [d2] and [d1], the byte counts shifted right by 20 after
    the subtraction, and then retains [d2].  On the snapshots of the scenario
    the cells read [2, 0, 2, 0, 50, 0]. *)
Theorem res_poll_disk_deltas self env1 env2 tr self1 tr1 self2 tr2 :
  poll_stat self env1 tr = (Ok self1, tr1) →
  poll_stat self1 env2 tr1 = (Ok self2, tr2) →
  ∃ d1 d2 row1 row2 head,
    p_disk_io_counters env1 = Ok d1 ∧ p_disk_io_counters env2 = Ok d2
    ∧ tr1 = tr ++ EvWrite (outfile self) (row1 +:+ NL)
                  :: (if flush self then [EvFlush (outfile self)] else [])
    ∧ prev_disk_stat self1 = d1
    ∧ tr2 = tr1 ++ EvWrite (outfile self) (row2 +:+ NL)
                   :: (if flush self then [EvFlush (outfile self)] else [])
    ∧ prev_disk_stat self2 = d2
    ∧ row2 = head +:+ ", " +:+ join ", " (pretty <$>
               [ read_count d2 - read_count d1;
                 write_count d2 - write_count d1;
                 Z.shiftr (read_bytes d2 - read_bytes d1) 20;
                 Z.shiftr (write_bytes d2 - write_bytes d1) 20;
                 read_time d2 - read_time d1;
                 write_time d2 - write_time d1 ])
    ∧ (d1 = Examples.disk_before → d2 = Examples.disk_after →
       row2 = head +:+ ", 2, 0, 2, 0, 50, 0").
Proof.
  intros Hp1 Hp2.
  apply res_poll_Ok_inv in Hp1
    as (now1 & ts1 & tot1 & pc1 & m1 & s1 & d1 & _ & _ & _ & _ & _ & _ & Hd1 & _ & Htr1 & ->).
  apply res_poll_Ok_inv in Hp2
    as (now2 & ts2 & tot2 & pc2 & m2 & s2 & d2 & _ & _ & _ & _ & _ & _ & Hd2 & _ & Htr2 & ->).
  cbn in Htr2.
  destruct (res_line_disk_cells (set_prev_disk_stat self d1) ts2
              (ts2 - starttime self) tot2 pc2 m2 s2 d2) as [head Hhead].
  exists d1, d2. eexists _, _, head. split_and!; try eassumption; try done.
  intros -> ->. by rewrite Hhead.
Qed.



(** The core count of a monitor is the answer [psutil.cpu_count()] gave to
    its constructor. *)
Lemma res_init_ncores outfile_name fl env tr self tr' :
  __init__ outfile_name fl env tr = (Ok self, tr') →
  i_cpu_count env = Ok (ncores self).
Proof.
  intros Hi.
  unfold __init__, _write_header, open_outfile, print, fopen, fwrite,
    bind, call, ret, emit in Hi.
  cbn in Hi. destruct (i_cpu_count env) as [n| |]; [|done..].
  destruct outfile_name as [[|c s]|]; cbn in Hi; case_answers Hi;
    by inversion Hi.
Qed.

(** Two floats that differ. *)
Lemma float_neq (x y : float) : PrimFloat.eqb x y ≠ PrimFloat.eqb x x → x ≠ y.
Proof. intros Hne ->. done. Qed.

(** C6.  In every poll of a [ResMonitor] that returns, the fourth cell of the
    row ([%CPU], after the timestamp, the uptime and the core count) is the
    whole-system percentage [psutil.cpu_percent(percpu=False)] answered,
    multiplied by the monitor's core count; the poll leaves the core count as
    it is, and the core count is what [psutil.cpu_count()] answered at
    construction.  The per-core percentages have no part in the cell: with a
    whole-system load of 50 on 2 cores the cell is 100, where the per-core
    loads 10 and 20 of the same poll add up to 30. *)
Theorem res_poll_cpu_cell self env tr self' tr' :
  poll_stat self env tr = (Ok self', tr') →
  ∃ now timestamp total rest,
    p_time env = Ok now ∧ int_of_float now = Ok timestamp
    ∧ p_cpu_percent env = Ok total
    ∧ tr' = tr ++ EvWrite (outfile self)
                    (pretty timestamp +:+ ", " +:+ pretty (timestamp - starttime self)
                     +:+ ", " +:+ pretty (ncores self) +:+ ", "
                     +:+ float_repr (total * float_of_int (ncores self))%float
                     +:+ ", " +:+ rest)
                  :: (if flush self then [EvFlush (outfile self)] else [])
    ∧ ncores self' = ncores self
    ∧ (∀ outfile_name fl ienv tr0 tr1,
         __init__ outfile_name fl ienv tr0 = (Ok self, tr1) →
         i_cpu_count ienv = Ok (ncores self))
    ∧ cpu_cell Examples.res_monitor 50%float = 100%float
    ∧ sum_percpu [10%float; 20%float] = 30%float
    ∧ cpu_cell Examples.res_monitor 50%float ≠ sum_percpu [10%float; 20%float].
Proof.
  intros Hp.
  apply res_poll_Ok_inv in Hp
    as (now & ts & tot & pc & m & s & d & Hnow & Hts & Htot & _ & _ & _ & _ & _ & Htr & ->).
  unfold line, cpu_cell in Htr. rewrite <- !string_app_assoc in Htr.
  exists now, ts, tot. eexists. split_and!; [done|done|done|exact Htr|done| |done|done|].
  - intros ?????. apply res_init_ncores.
  - apply float_neq. by vm_compute.
Qed.

End ResMonitorClaims.

(** The theorem on the two polls of the scenario. *)
Lemma res_poll_disk_deltas_witness :
  ResMonitor.poll_stat (repr := binary_repr) Examples.res_monitor
    (Examples.res_poll 1005%float Examples.disk_before) []
  = (Ok Examples.res_monitor1, Examples.res_run1.2)
  ∧ ResMonitor.poll_stat (repr := binary_repr) Examples.res_monitor1
      (Examples.res_poll 1010%float Examples.disk_after) Examples.res_run1.2
    = (Ok Examples.res_monitor2, Examples.res_run2.2)
  ∧ ∃ head,
      Examples.res_run2.2
      = Examples.res_run1.2 ++ [EvWrite Stdout ((head +:+ ", 2, 0, 2, 0, 50, 0") +:+ NL)].
Proof.
  assert (H1 : ResMonitor.poll_stat (repr := binary_repr) Examples.res_monitor
                 (Examples.res_poll 1005%float Examples.disk_before) []
               = (Ok Examples.res_monitor1, Examples.res_run1.2))
    by (vm_compute; reflexivity).
  assert (H2 : ResMonitor.poll_stat (repr := binary_repr) Examples.res_monitor1
                 (Examples.res_poll 1010%float Examples.disk_after) Examples.res_run1.2
               = (Ok Examples.res_monitor2, Examples.res_run2.2))
    by (vm_compute; reflexivity).
  split; [exact H1|]. split; [exact H2|].
  destruct (res_poll_disk_deltas _ _ _ _ _ _ _ _ H1 H2)
    as (d1 & d2 & row1 & row2 & head & Hd1 & Hd2 & _ & _ & Htr2 & _ & _ & Hrow).
  exists head. rewrite Htr2. rewrite Hrow; [done | |]; cbn in Hd1, Hd2; congruence.
Defined.

(** The theorem on the first poll of the scenario. *)
Lemma res_poll_cpu_cell_witness :
  ResMonitor.poll_stat (repr := binary_repr) Examples.res_monitor
    (Examples.res_poll 1005%float Examples.disk_before) []
  = (Ok Examples.res_monitor1, Examples.res_run1.2)
  ∧ ∃ rest,
      Examples.res_run1.2
      = [EvWrite Stdout ("1005, 5, 2, " +:+ binary_repr 100%float +:+ ", " +:+ rest)].
Proof.
  assert (H1 : ResMonitor.poll_stat (repr := binary_repr) Examples.res_monitor
                 (Examples.res_poll 1005%float Examples.disk_before) []
               = (Ok Examples.res_monitor1, Examples.res_run1.2))
    by (vm_compute; reflexivity).
  split; [exact H1|].
  destruct (res_poll_cpu_cell _ _ _ _ _ H1)
    as (now & ts & total & rest & Hnow & Hts & Htot & Htr & _).
  exists rest. rewrite Htr. cbn in Hnow, Htot.
  injection Hnow as <-. injection Htot as <-.
  vm_compute in Hts. injection Hts as <-. done.
Defined.

Section ProcessSetFacts.
Context {repr : FloatRepr}.
Import ProcessSetMonitor ProcessGroup.

(** The queries of [_stat_proc] on a process not visited yet. *)
Lemma stat_proc_fresh proc visited tr :
  pid proc ∉ visited →
  (_stat_proc proc visited).1 = {[pid proc]} ∪ visited
  ∧ (_stat_proc proc visited).2 tr
    = (match queries proc with
       | Ok d => Ok (Some d)
       | Raise e => if gone_or_denied e then Ok None else Raise e
       | Diverge => Diverge
       end, tr).
Proof.
  intros Hfresh. unfold _stat_proc. rewrite decide_False by done. split; [done|].
  unfold queries, try_except, bind, call, ret. cbn.
  destruct (io_counters proc) as [io|e|]; cbn; [|by destruct (gone_or_denied e)|done].
  destruct (memory_info_rss proc) as [rss|e|]; cbn; [|by destruct (gone_or_denied e)|done].
  destruct (memory_percent proc) as [mp|e|]; cbn; [|by destruct (gone_or_denied e)|done].
  destruct (cpu_percent proc) as [cp|e|]; cbn; [done|by destruct (gone_or_denied e)|done].
Qed.

Lemma stat_proc_visited proc visited tr :
  pid proc ∈ visited →
  (_stat_proc proc visited).1 = visited
  ∧ (_stat_proc proc visited).2 tr = (Ok None, tr).
Proof. intros Hin. unfold _stat_proc. by rewrite decide_True. Qed.

Lemma queries_nonempty proc d : queries proc = Ok d → ∃ item items, d = item :: items.
Proof.
  unfold queries, proc_stat. intros Hq.
  repeat match type of Hq with
    | context [match ?r with Ok _ => _ | Raise _ => _ | Diverge => _ end] =>
        destruct r; try discriminate Hq
    end.
  injection Hq as <-. eauto.
Qed.

(** The loop of [poll_stat] is the sum over the counted processes, and leaves
    no trace of its own. *)
Lemma enumerate_tally self procs visited curr_stat tr :
  enumerate self procs visited curr_stat tr
  = (tally (filter (λ p, pid p ∉ visited) (counted self procs)) curr_stat, tr).
Proof.
  unfold counted.
  induction procs as [|p rest IH] in visited, curr_stat |- *; [done|].
  cbn [enumerate]. rewrite filter_cons.
  destruct (is_candidate self p) eqn:Hcand.
  - rewrite decide_True by done. cbn [dedup_pid]. rewrite filter_cons.
    destruct (decide (pid p ∈ visited)) as [Hin|Hfresh].
    + destruct (stat_proc_visited p visited tr Hin) as [Hv Hq].
      destruct (_stat_proc p visited) as [visited' qs]. cbn in Hv, Hq. subst visited'.
      rewrite decide_False by (by intros ?).
      unfold try_except, bind at 1. unfold bind at 1. rewrite Hq. cbn.
      rewrite IH. f_equal. f_equal.
      rewrite list_filter_filter. apply list_filter_iff. intros q. split; [|tauto].
      intros Hq'. split; [done|]. intros Heq. apply Hq'. by rewrite Heq.
    + destruct (stat_proc_fresh p visited tr Hfresh) as [Hv Hq].
      destruct (_stat_proc p visited) as [visited' qs]. cbn in Hv, Hq. subst visited'.
      rewrite decide_True by done. cbn [tally].
      unfold try_except, bind at 1. unfold bind at 1. rewrite Hq.
      assert (Hfilter :
        filter (λ q, pid q ∉ {[pid p]} ∪ visited)
          (dedup_pid (filter (λ p, is_candidate self p) rest))
        = filter (λ q, pid q ∉ visited)
            (filter (λ q, pid q ≠ pid p)
               (dedup_pid (filter (λ p, is_candidate self p) rest)))).
      { rewrite list_filter_filter. apply list_filter_iff. intros q.
        rewrite not_elem_of_union, not_elem_of_singleton. tauto. }
      destruct (queries p) as [d|e|] eqn:Hqp; cbn.
      * destruct (queries_nonempty p d Hqp) as (item & items & ->). cbn.
        rewrite IH. rewrite Hfilter. done.
      * destruct (gone_or_denied e) eqn:He; cbn; rewrite ?He; cbn; [|done].
        rewrite IH. by rewrite Hfilter.
      * done.
  - rewrite decide_False by (by intros ?). apply IH.
Qed.

End ProcessSetFacts.

Section ProcessSetClaims.
Context {repr : FloatRepr}.
Import ProcessSetMonitor ProcessGroup.

Lemma dedup_pid_subseteq procs p : p ∈ dedup_pid procs → p ∈ procs.
Proof.
  induction procs as [|q rest IH]; cbn; [done|].
  rewrite !elem_of_cons, list_elem_of_filter. intros [->|[_ Hin]]; auto.
Qed.

Lemma dedup_pid_covers procs p : p ∈ procs → ∃ q, q ∈ dedup_pid procs ∧ pid q = pid p.
Proof.
  induction procs as [|q rest IH]; cbn; [by intros ?%elem_of_nil|].
  intros [->|Hin]%elem_of_cons.
  - exists q. split; [left|done].
  - destruct (IH Hin) as (q' & Hq' & Hpid).
    destruct (decide (pid q' = pid q)) as [Heq|Hne].
    + exists q. split; [left|congruence].
    + exists q'. split; [|done]. right. by apply list_elem_of_filter.
Qed.

Lemma dedup_pid_NoDup procs : NoDup (pid <$> dedup_pid procs).
Proof.
  induction procs as [|q rest IH]; cbn; [constructor|].
  constructor.
  - intros (q' & Heq & Hin)%list_elem_of_fmap.
    apply list_elem_of_filter in Hin as [Hne _]. congruence.
  - eapply sublist_NoDup; [exact IH|]. apply fmap_sublist, sublist_filter.
Qed.

(** The counted processes: candidates of the enumeration, one for each
    process identifier that has a candidate. *)
Lemma counted_spec self procs :
  NoDup (pid <$> counted self procs)
  ∧ (∀ p, p ∈ counted self procs → p ∈ procs ∧ is_candidate self p = true)
  ∧ (∀ p, p ∈ procs → is_candidate self p = true →
          ∃ q, q ∈ counted self procs ∧ pid q = pid p).
Proof.
  unfold counted. split_and!.
  - apply dedup_pid_NoDup.
  - intros p [Hin Hc]%dedup_pid_subseteq%list_elem_of_filter.
    split; [done|]. by apply Is_true_true.
  - intros p Hin Hc. apply dedup_pid_covers, list_elem_of_filter.
    split; [|done]. by apply Is_true_true.
Qed.

Lemma tally_Ok procs curr_stat curr_stat' :
  tally procs curr_stat = Ok curr_stat' →
  curr_stat' = fold_left (λ acc p, contribution p acc) procs curr_stat.
Proof.
  induction procs as [|p rest IH] in curr_stat |- *; cbn; [by inversion 1|].
  unfold contribution. destruct (queries p) as [d|e|]; [apply IH| |done].
  destruct (gone_or_denied e); [apply IH|done].
Qed.

Lemma tally_tolerable procs curr_stat :
  (∀ p, p ∈ procs → tolerable p) →
  tally procs curr_stat = Ok (fold_left (λ acc p, contribution p acc) procs curr_stat).
Proof.
  induction procs as [|p rest IH] in curr_stat |- *; cbn; [done|].
  intros Htol. pose proof (Htol p ltac:(left)) as Hp.
  unfold tolerable, contribution in *.
  destruct (queries p) as [d|e|]; [| |done].
  - apply IH. intros q Hq. apply Htol. by right.
  - destruct (gone_or_denied e); [|done]. apply IH. intros q Hq. apply Htol. by right.
Qed.

Lemma filter_not_visited_empty (procs : list process) (visited : gset Z) :
  visited = ∅ → filter (λ p, pid p ∉ visited) procs = procs.
Proof.
  intros ->. induction procs as [|p rest IH]; [done|].
  rewrite filter_cons, decide_True by apply not_elem_of_empty. by rewrite IH.
Qed.

(** A poll, once the clock and the enumeration have answered. *)
Lemma ps_poll_unfold self env now timestamp procs tr :
  p_time env = Ok now → int_of_float now = Ok timestamp →
  p_process_iter env = Ok procs →
  poll_stat self env tr
  = (curr_stat <- call (tally (counted self procs) ∅) ;;
     fwrite (outfile self)
       (line timestamp (timestamp - starttime self) curr_stat +:+ NL) (p_write env) ;;
     if flush self then fflush (outfile self) (p_flush env) else ret tt) tr.
Proof.
  intros Hnow Hts Hprocs. unfold poll_stat.
  unfold bind at 1. unfold call at 1. rewrite Hnow.
  unfold bind at 1. unfold call at 1. rewrite Hts.
  unfold bind at 1. unfold call at 1. rewrite Hprocs.
  unfold bind at 1. rewrite enumerate_tally, filter_not_visited_empty by done.
  done.
Qed.

Lemma ps_poll_Ok_inv self env tr tr' :
  poll_stat self env tr = (Ok tt, tr') →
  ∃ now timestamp procs curr_stat,
    p_time env = Ok now ∧ int_of_float now = Ok timestamp
    ∧ p_process_iter env = Ok procs
    ∧ tally (counted self procs) ∅ = Ok curr_stat
    ∧ p_write env = Ok tt
    ∧ (flush self → p_flush env = Ok tt)
    ∧ tr' = tr ++ EvWrite (outfile self)
                    (line timestamp (timestamp - starttime self) curr_stat +:+ NL)
                  :: (if flush self then [EvFlush (outfile self)] else []).
Proof.
  intros Hp.
  destruct (p_time env) as [now| |] eqn:Hnow;
    [|unfold poll_stat, bind, call in Hp; by rewrite Hnow in Hp..].
  destruct (int_of_float now) as [ts| |] eqn:Hts;
    [|unfold poll_stat, bind, call in Hp; by rewrite Hnow, Hts in Hp..].
  destruct (p_process_iter env) as [procs| |] eqn:Hprocs;
    [|unfold poll_stat, bind, call in Hp; by rewrite Hnow, Hts, Hprocs in Hp..].
  rewrite (ps_poll_unfold _ _ _ _ _ _ Hnow Hts Hprocs) in Hp.
  unfold fwrite, fflush, bind, call, ret, emit in Hp.
  destruct (tally (counted self procs) ∅) as [cs| |] eqn:Htally; [|done..].
  destruct (p_write env) as [[]| |] eqn:Hw; [|done..].
  exists now, ts, procs, cs.
  destruct (flush self); cbn in Hp.
  - destruct (p_flush env) as [[]| |] eqn:Hf; [|done..].
    inversion Hp. split_and!; try done. by rewrite <- app_assoc.
  - inversion Hp. split_and!; done.
Qed.

Lemma ps_poll_Ok self env now timestamp procs curr_stat tr :
  p_time env = Ok now → int_of_float now = Ok timestamp →
  p_process_iter env = Ok procs →
  tally (counted self procs) ∅ = Ok curr_stat →
  p_write env = Ok tt → (flush self → p_flush env = Ok tt) →
  poll_stat self env tr
  = (Ok tt, tr ++ EvWrite (outfile self)
                    (line timestamp (timestamp - starttime self) curr_stat +:+ NL)
                  :: (if flush self then [EvFlush (outfile self)] else [])).
Proof.
  intros Hnow Hts Hprocs Htally Hw Hf.
  rewrite (ps_poll_unfold _ _ _ _ _ _ Hnow Hts Hprocs).
  unfold fwrite, fflush, bind, call, ret, emit. rewrite Htally, Hw.
  destruct (flush self); [|done]. rewrite Hf by done. by rewrite <- app_assoc.
Qed.

(** C4.  A poll of a [ProcessSetMonitor] that returns has written the row of
    the sum over the counted processes, each adding its contribution once.
    The counted processes are candidates of the enumeration with pairwise
    different process identifiers, one for every identifier that has a
    candidate, whether the candidate matches by identifier, by keyword or by
    both.  Nothing of the poll is kept: the same poll made again, right
    afterwards, counts the same processes and writes the same row. *)
Theorem ps_poll_counts_once self env tr tr' :
  poll_stat self env tr = (Ok tt, tr') →
  ∃ now timestamp procs row,
    p_time env = Ok now ∧ int_of_float now = Ok timestamp
    ∧ p_process_iter env = Ok procs
    ∧ NoDup (pid <$> counted self procs)
    ∧ (∀ p, p ∈ counted self procs → p ∈ procs ∧ is_candidate self p = true)
    ∧ (∀ p, p ∈ procs →
         pid p ∈ pids self ∨ (∃ k, k ∈ keywords self ∧ contains k (lower (name p)) = true) →
         ∃ q, q ∈ counted self procs ∧ pid q = pid p)
    ∧ row = line timestamp (timestamp - starttime self)
              (fold_left (λ acc p, contribution p acc) (counted self procs) ∅) +:+ NL
    ∧ tr' = tr ++ EvWrite (outfile self) row
                  :: (if flush self then [EvFlush (outfile self)] else [])
    ∧ poll_stat self env tr'
      = (Ok tt, tr' ++ EvWrite (outfile self) row
                       :: (if flush self then [EvFlush (outfile self)] else [])).
Proof.
  intros Hp.
  apply ps_poll_Ok_inv in Hp
    as (now & ts & procs & cs & Hnow & Hts & Hprocs & Htally & Hw & Hf & ->).
  destruct (counted_spec self procs) as (Hnodup & Hsub & Hcov).
  pose proof (tally_Ok _ _ _ Htally) as Hcs.
  exists now, ts, procs. eexists. split_and!; try done.
  - intros p Hin Hmatch. apply Hcov; [done|].
    unfold is_candidate. apply orb_true_iff.
    destruct Hmatch as [Hpid|(k & Hk & Hcont)].
    + left. by apply bool_decide_eq_true.
    + right. unfold any. apply existsb_exists. exists true. split; [|done].
      apply list_elem_of_In, list_elem_of_fmap. eauto.
  - by rewrite Hcs.
  - rewrite <- Hcs. by eapply ps_poll_Ok.
Qed.

(** C5.  A poll in which every failing process fails as gone or out of reach
    (one of its four queries raises [NoSuchProcess] or [AccessDenied], the
    earlier ones having succeeded) returns, provided the clock, the
    enumeration and the sink answer: no exception leaves [poll_stat], and
    the row is the sum of the contributions, where a failing process
    contributes nothing, whatever the sum was before it.  In the loop, such
    a process is passed over and the loop goes on with the rest of the
    enumeration. *)
Theorem ps_poll_skips_gone self env now timestamp procs tr :
  p_time env = Ok now → int_of_float now = Ok timestamp →
  p_process_iter env = Ok procs →
  (∀ p, p ∈ procs → tolerable p) →
  p_write env = Ok tt → (flush self → p_flush env = Ok tt) →
  poll_stat self env tr
  = (Ok tt, tr ++ EvWrite (outfile self)
                    (line timestamp (timestamp - starttime self)
                       (fold_left (λ acc p, contribution p acc) (counted self procs) ∅)
                     +:+ NL)
                  :: (if flush self then [EvFlush (outfile self)] else []))
  ∧ (∀ p e, queries p = Raise e → gone_or_denied e = true →
       (∀ curr_stat, contribution p curr_stat = curr_stat)
       ∧ ∀ rest visited curr_stat tr0,
           enumerate self (p :: rest) visited curr_stat tr0
           = enumerate self rest
               (if is_candidate self p then {[pid p]} ∪ visited else visited)
               curr_stat tr0).
Proof.
  intros Hnow Hts Hprocs Htol Hw Hf. split.
  - eapply ps_poll_Ok; try done.
    apply tally_tolerable. intros p [Hin _]%counted_spec. by apply Htol.
  - intros p e Hq He. split; [intros cs; unfold contribution; by rewrite Hq|].
    intros rest visited cs tr0. rewrite !enumerate_tally. f_equal.
    unfold counted. rewrite filter_cons.
    destruct (is_candidate self p) eqn:Hcand.
    + rewrite decide_True by done. cbn [dedup_pid]. rewrite filter_cons.
      assert (Hfilter : ∀ l : list process,
                filter (λ q, pid q ∉ visited) (filter (λ q, pid q ≠ pid p) l)
                = filter (λ q, pid q ∉ {[pid p]} ∪ visited) l).
      { intros l. rewrite list_filter_filter. apply list_filter_iff. intros q.
        rewrite not_elem_of_union, not_elem_of_singleton. tauto. }
      destruct (decide (pid p ∉ visited)).
      * cbn [tally]. rewrite Hq, He. by rewrite Hfilter.
      * by rewrite Hfilter.
    + by rewrite decide_False by (by intros ?).
Qed.

(** C10.  A poll in which no process of the enumeration is a candidate
    writes one row all the same: the timestamp, the uptime and seven cells
    [0], one for each metric of [BASE_STAT] in sorted order, and returns,
    provided the clock, the enumeration and the sink answer. *)
Theorem ps_poll_no_match self env now timestamp procs tr :
  p_time env = Ok now → int_of_float now = Ok timestamp →
  p_process_iter env = Ok procs →
  (∀ p, p ∈ procs → is_candidate self p = false) →
  p_write env = Ok tt → (flush self → p_flush env = Ok tt) →
  poll_stat self env tr
  = (Ok tt, tr ++ EvWrite (outfile self)
                    (pretty timestamp +:+ ", " +:+ pretty (timestamp - starttime self)
                     +:+ ", 0, 0, 0, 0, 0, 0, 0" +:+ NL)
                  :: (if flush self then [EvFlush (outfile self)] else []))
  ∧ sorted (BASE_STAT.*1)
    = ["%CPU"; "%MEM"; "io.read"; "io.read.MB"; "io.write"; "io.write.MB"; "mem.rss.MB"]
  ∧ header
    = "Timestamp, Uptime, %CPU, %MEM, io.read, io.read.MB, io.write, io.write.MB, mem.rss.MB"
      +:+ NL.
Proof.
  intros Hnow Hts Hprocs Hnone Hw Hf. split; [|done].
  assert (Hcounted : counted self procs = []).
  { unfold counted.
    replace (filter (λ p, is_candidate self p) procs) with (@nil process); [done|].
    symmetry. clear -Hnone. induction procs as [|p rest IH]; [done|].
    rewrite filter_cons, decide_False.
    - apply IH. intros q Hq. apply Hnone. by right.
    - rewrite (Hnone p) by left. by intros ?. }
  erewrite ps_poll_Ok; try done; [|by rewrite Hcounted].
  unfold line. by rewrite <- !string_app_assoc.
Qed.

End ProcessSetClaims.

(** Membership in a list that is written out. *)
Ltac elem_cases H :=
  repeat (apply elem_of_cons in H as [->|H]); try (by apply elem_of_nil in H).

(** The theorem on the example enumeration: the process that matches both
    rules is listed twice and counted once, and the sum of 3 and 7 reads is
    10. *)
Lemma ps_poll_counts_once_witness :
  ProcessSetMonitor.poll_stat (repr := binary_repr) Examples.ps_monitor
    (Examples.ps_poll Examples.ps_procs) []
  = (Ok tt, Examples.ps_run.2)
  ∧ ProcessGroup.counted Examples.ps_monitor Examples.ps_procs
    = [Examples.p_both; Examples.p_keyword; Examples.p_gone]
  ∧ ∃ row,
      Examples.ps_run.2 = [EvWrite (File 1) row; EvFlush (File 1)]
      ∧ row = "1005, 5, " +:+ binary_repr 5%float +:+ ", " +:+ binary_repr 3%float
              +:+ ", 10, 10, 2, 2, 30" +:+ NL
      ∧ ProcessSetMonitor.poll_stat (repr := binary_repr) Examples.ps_monitor
          (Examples.ps_poll Examples.ps_procs) Examples.ps_run.2
        = (Ok tt, Examples.ps_run.2 ++ [EvWrite (File 1) row; EvFlush (File 1)]).
Proof.
  assert (H1 : ProcessSetMonitor.poll_stat (repr := binary_repr) Examples.ps_monitor
                 (Examples.ps_poll Examples.ps_procs) []
               = (Ok tt, Examples.ps_run.2))
    by (vm_compute; reflexivity).
  split; [exact H1|]. split; [by vm_compute|].
  destruct (ps_poll_counts_once _ _ _ _ H1)
    as (now & ts & procs & row & _ & _ & _ & _ & _ & _ & _ & Htr & Hagain).
  exists row. split; [exact Htr|]. split; [|exact Hagain].
  vm_compute in Htr. injection Htr as <-. by vm_compute.
Defined.

(** The theorem on the example enumeration, in which one candidate is
    gone. *)
Lemma ps_poll_skips_gone_witness :
  ProcessGroup.queries Examples.p_gone = Raise NoSuchProcess
  ∧ ProcessSetMonitor.poll_stat (repr := binary_repr) Examples.ps_monitor
      (Examples.ps_poll Examples.ps_procs) []
    = (Ok tt, Examples.ps_run.2)
  ∧ ProcessSetMonitor.poll_stat (repr := binary_repr) Examples.ps_monitor
      (Examples.ps_poll [Examples.p_both; Examples.p_keyword]) []
    = (Ok tt, Examples.ps_run.2).
Proof.
  split; [done|].
  assert (Htol : ∀ p, p ∈ Examples.ps_procs → ProcessGroup.tolerable p).
  { intros p Hin. unfold Examples.ps_procs in Hin. elem_cases Hin; by vm_compute. }
  split.
  - rewrite (proj1 (ps_poll_skips_gone (repr := binary_repr) Examples.ps_monitor
                      (Examples.ps_poll Examples.ps_procs) 1005%float 1005
                      Examples.ps_procs []
                      eq_refl eq_refl eq_refl Htol eq_refl
                      (λ _, eq_refl))).
    by vm_compute.
  - by vm_compute.
Defined.

(** The theorem on an enumeration without a candidate. *)
Lemma ps_poll_no_match_witness :
  ProcessSetMonitor.poll_stat (repr := binary_repr) Examples.ps_monitor
    (Examples.ps_poll [Examples.p_none]) []
  = (Ok tt, [EvWrite (File 1) ("1005, 5, 0, 0, 0, 0, 0, 0, 0" +:+ NL); EvFlush (File 1)]).
Proof.
  refine (proj1 (ps_poll_no_match (repr := binary_repr) Examples.ps_monitor
                   (Examples.ps_poll [Examples.p_none]) 1005%float 1005
                   [Examples.p_none] [] eq_refl eq_refl eq_refl _ eq_refl (λ _, eq_refl))).
  intros p Hin. elem_cases Hin. by vm_compute.
Defined.

Section NetworkFacts.
Import NetworkInterfaceMonitor NetworkRows.

Lemma poll_nic_Ok_inv self env timestamp net_stat item tr tr' :
  poll_nic self env timestamp (timestamp - starttime self) net_stat item tr = (Ok tt, tr') →
  ∃ events, tr' = tr ++ events ∧ nic_row self timestamp net_stat item events.
Proof.
  destruct item as [nic f]. unfold poll_nic, nic_row, getitem, fwrite, fflush.
  unfold bind, call, ret, raise, emit. cbn.
  destruct (net_stat !! nic) as [cur|]; [|done].
  destruct (prev_stat self !! nic) as [prev|]; [|done].
  destruct (p_write env nic) as [[]| |]; [|done..].
  destruct (flush self).
  - destruct (p_flush env nic) as [[]| |]; [|done..]. intros [= <-].
    eexists. split; [|by eexists _, _]. by rewrite <- app_assoc.
  - intros [= <-]. eexists. split; [|by eexists _, _]. done.
Qed.

Lemma poll_loop_Ok_inv self env timestamp net_stat files tr tr' :
  for_each files (poll_nic self env timestamp (timestamp - starttime self) net_stat) tr
  = (Ok tt, tr') →
  ∃ rows, tr' = tr ++ concat rows
          ∧ Forall2 (nic_row self timestamp net_stat) files rows.
Proof.
  induction files as [|item files IH] in tr |- *; cbn.
  - intros [= <-]. exists []. by rewrite app_nil_r.
  - intros Hk. apply bind_Ok_inv in Hk as ([] & tr1 & Hitem & Hrest).
    apply poll_nic_Ok_inv in Hitem as (events & -> & Hrow).
    apply IH in Hrest as (rows & -> & Hrows).
    exists (events :: rows). split; [by rewrite <- app_assoc|by constructor].
Qed.

Lemma nic_poll_Ok_inv self env tr self' tr' :
  poll_stat self env tr = (Ok self', tr') →
  ∃ now timestamp net_stat rows,
    p_time env = Ok now ∧ int_of_float now = Ok timestamp
    ∧ p_net_io_counters env = Ok net_stat
    ∧ Forall2 (nic_row self timestamp net_stat) (nic_files self) rows
    ∧ tr' = tr ++ concat rows
    ∧ self' = set_prev_stat self net_stat.
Proof.
  unfold poll_stat. intros Hp.
  apply bind_Ok_inv in Hp as (now & tr1 & [Hnow ->]%call_inv & Hp).
  apply bind_Ok_inv in Hp as (ts & tr1 & [Hts ->]%call_inv & Hp).
  apply bind_Ok_inv in Hp as (net_stat & tr1 & [Hnet ->]%call_inv & Hp).
  apply bind_Ok_inv in Hp as ([] & tr1 & Hloop & Hp).
  apply poll_loop_Ok_inv in Hloop as (rows & -> & Hrows).
  injection Hp as <- <-. by exists now, ts, net_stat, rows.
Qed.

End NetworkFacts.

Section NetworkClaims.
Import NetworkInterfaceMonitor NetworkRows.

Lemma opened_app tr es : opened (tr ++ es) = (opened tr + opened es)%nat.
Proof. unfold opened. by rewrite filter_app, length_app. Qed.

Lemma dict_set_keys {V} key (v : V) d :
  (dict_set key v d).*1 = if decide (key ∈ d.*1) then d.*1 else d.*1 ++ [key].
Proof.
  induction d as [|[k w] d IH]; cbn; [done|].
  destruct (decide (k = key)) as [->|Hne]; cbn.
  - by rewrite decide_True by left.
  - rewrite IH. destruct (decide (key ∈ d.*1)) as [Hin|Hout].
    + by rewrite decide_True by (by right).
    + rewrite decide_False; [done|]. intros [?|?]%elem_of_cons; congruence.
Qed.

Lemma dict_set_values {V} key (v : V) d f :
  f ∈ (dict_set key v d).*2 → f = v ∨ f ∈ d.*2.
Proof.
  induction d as [|[k w] d IH]; cbn.
  - intros [->|[]%elem_of_nil]%elem_of_cons. by left.
  - destruct (decide (k = key)) as [->|Hne]; cbn.
    + intros [->|Hin]%elem_of_cons; [by left|right; by right].
    + intros [->|Hin]%elem_of_cons; [right; by left|].
      destruct (IH Hin); [by left|right; by right].
Qed.

Lemma dict_set_values_NoDup {V} key (v : V) d :
  NoDup d.*2 → v ∉ d.*2 → NoDup (dict_set key v d).*2.
Proof.
  induction d as [|[k w] d IH]; cbn; intros Hd Hv.
  - by apply NoDup_singleton.
  - apply NoDup_cons in Hd as [Hw Hd].
    apply not_elem_of_cons in Hv as [Hvw Hv].
    destruct (decide (k = key)) as [->|Hne]; cbn.
    + by constructor.
    + constructor; [|by apply IH].
      intros [->|Hin]%dict_set_values; done.
Qed.

Lemma files_ok_set nic fd d tr es :
  files_ok d tr → fd = opened tr → opened es = 1%nat →
  files_ok (dict_set nic (File fd) d) (tr ++ es).
Proof.
  intros (Hk & Hv & Hlt) -> Hes. split_and!.
  - rewrite dict_set_keys. case_decide; [done|].
    apply NoDup_app. split_and!; [done| |apply NoDup_singleton].
    intros k Hin ->%list_elem_of_singleton. done.
  - apply dict_set_values_NoDup; [done|].
    intros (fd & [= <-] & Hfd)%Hlt. lia.
  - intros f [->|Hin]%dict_set_values; rewrite opened_app, Hes.
    + exists (opened tr). split; [done|lia].
    + destruct (Hlt f Hin) as (fd & -> & Hfd). exists fd. split; [done|lia].
Qed.

Lemma create_new_logfile_Ok_inv pattern nic env tr f tr' :
  create_new_logfile pattern nic env tr = (Ok f, tr') →
  f = File (opened tr)
  ∧ tr' = tr ++ [EvOpen (opened tr) (format_nic pattern nic); EvWrite f header].
Proof.
  unfold create_new_logfile, fopen, fwrite, bind, call, ret, emit, opened.
  destruct (i_open env nic) as [[]| |]; [|done..].
  destruct (i_write env nic) as [[]| |]; [|done..].
  intros [= <- <-]. by rewrite <- app_assoc.
Qed.

Lemma open_nic_files_ok pattern nics env d tr d' tr' :
  open_nic_files pattern nics env d tr = (Ok d', tr') →
  files_ok d tr → files_ok d' tr'.
Proof.
  induction nics as [|nic rest IH] in d, tr |- *; cbn [open_nic_files].
  - by intros [= <- <-].
  - intros Hk Hok.
    apply bind_Ok_inv in Hk as (existing & tr1 & [_ ->]%call_inv & Hk).
    destruct (decide (nic ∈ existing)); [|by eapply IH].
    apply bind_Ok_inv in Hk as (f & tr1 & [-> ->]%create_new_logfile_Ok_inv & Hk).
    eapply IH; [exact Hk|]. by apply files_ok_set.
Qed.

(** The log files of a monitor that was constructed: one for each monitored
    interface, and no file object twice. *)
Lemma nic_init_files pattern nics fl env tr self tr' :
  __init__ pattern nics fl env tr = (Ok self, tr') →
  NoDup (nic_files self).*1 ∧ NoDup (nic_files self).*2.
Proof.
  unfold __init__. intros Hi.
  apply bind_Ok_inv in Hi as ([] & tr1 & _ & Hi).
  apply bind_Ok_inv in Hi as (files & tr2 & Hfiles & Hi).
  apply open_nic_files_ok in Hfiles as (Hk & Hv & _).
  2:{ split_and!; [constructor..|]. by intros f []%elem_of_nil. }
  destruct files as [|item files]; [done|].
  apply bind_Ok_inv in Hi as (prev & tr3 & _ & Hi).
  apply bind_Ok_inv in Hi as (now & tr4 & _ & Hi).
  apply bind_Ok_inv in Hi as (ts & tr5 & _ & Hi).
  apply nic_poll_Ok_inv in Hi as (? & ? & net_stat & ? & _ & _ & _ & _ & _ & ->).
  done.
Qed.

(** C7.  A poll of a [NetworkInterfaceMonitor] that returns has written, for
    each monitored interface and in the order of the monitor's dict of log
    files, one row to the file of that interface; the deltas of the row are
    those of the interface's entry in the counters just read against the
    interface's entry in the retained mapping.  The object returned retains
    the mapping just read, as a whole, in place of the old one.  The files
    of a constructed monitor are different objects, one per interface.  In
    the scenario the row of [eth0] reads [1, 1, 5, 5, 0, 0, 0, 0] after the
    interface name. *)
Theorem nic_poll_deltas self env tr self' tr' :
  poll_stat self env tr = (Ok self', tr') →
  ∃ now timestamp net_stat rows,
    p_time env = Ok now ∧ int_of_float now = Ok timestamp
    ∧ p_net_io_counters env = Ok net_stat
    ∧ Forall2
        (λ item events,
           ∃ curr_stat prevstat,
             net_stat !! item.1 = Some curr_stat
             ∧ prev_stat self !! item.1 = Some prevstat
             ∧ events
               = EvWrite item.2
                   (pretty timestamp +:+ ", " +:+ pretty (timestamp - starttime self)
                    +:+ ", " +:+ item.1 +:+ ", "
                    +:+ pretty (Z.shiftr (bytes_sent curr_stat - bytes_sent prevstat) 20)
                    +:+ ", "
                    +:+ pretty (Z.shiftr (bytes_recv curr_stat - bytes_recv prevstat) 20)
                    +:+ ", " +:+ pretty (packets_sent curr_stat - packets_sent prevstat)
                    +:+ ", " +:+ pretty (packets_recv curr_stat - packets_recv prevstat)
                    +:+ ", " +:+ pretty (errin curr_stat - errin prevstat)
                    +:+ ", " +:+ pretty (errout curr_stat - errout prevstat)
                    +:+ ", " +:+ pretty (dropin curr_stat - dropin prevstat)
                    +:+ ", " +:+ pretty (dropout curr_stat - dropout prevstat) +:+ NL)
                 :: (if flush self then [EvFlush item.2] else []))
        (nic_files self) rows
    ∧ tr' = tr ++ concat rows
    ∧ prev_stat self' = net_stat
    ∧ nic_files self' = nic_files self
    ∧ (∀ pattern nics fl ienv tr0 tr1,
         __init__ pattern nics fl ienv tr0 = (Ok self, tr1) →
         NoDup (nic_files self).*1 ∧ NoDup (nic_files self).*2)
    ∧ (∀ t u, line t u "eth0" Examples.eth0_after Examples.eth0_before
              = pretty t +:+ ", " +:+ pretty u +:+ ", eth0, 1, 1, 5, 5, 0, 0, 0, 0" +:+ NL).
Proof.
  intros Hp.
  apply nic_poll_Ok_inv in Hp as (now & ts & net_stat & rows & Hnow & Hts & Hnet & Hrows & -> & ->).
  exists now, ts, net_stat, rows. split_and!; try done.
  intros ??????. apply nic_init_files.
Qed.

End NetworkClaims.

(** The theorem on the poll of the scenario, by a monitor of two
    interfaces. *)
Lemma nic_poll_deltas_witness :
  NetworkInterfaceMonitor.poll_stat Examples.nic_monitor
    (Examples.nic_poll 1005%float Examples.eth0_after) []
  = (Ok (NetworkInterfaceMonitor.set_prev_stat Examples.nic_monitor
           {[ "eth0" := Examples.eth0_after; "lo" := Examples.lo_stat;
              "wlan0" := Examples.lo_stat ]}),
     [ EvWrite (File 0) ("1005, 5, eth0, 1, 1, 5, 5, 0, 0, 0, 0" +:+ NL);
       EvWrite (File 1) ("1005, 5, lo, 0, 0, 0, 0, 0, 0, 0, 0" +:+ NL) ])
  ∧ ∃ rows, [ EvWrite (File 0) ("1005, 5, eth0, 1, 1, 5, 5, 0, 0, 0, 0" +:+ NL);
              EvWrite (File 1) ("1005, 5, lo, 0, 0, 0, 0, 0, 0, 0, 0" +:+ NL) ]
            = concat rows ∧ length rows = 2%nat.
Proof.
  assert (H1 : NetworkInterfaceMonitor.poll_stat Examples.nic_monitor
                 (Examples.nic_poll 1005%float Examples.eth0_after) []
               = (Ok (NetworkInterfaceMonitor.set_prev_stat Examples.nic_monitor
                        {[ "eth0" := Examples.eth0_after; "lo" := Examples.lo_stat;
                           "wlan0" := Examples.lo_stat ]}),
                  [ EvWrite (File 0) ("1005, 5, eth0, 1, 1, 5, 5, 0, 0, 0, 0" +:+ NL);
                    EvWrite (File 1) ("1005, 5, lo, 0, 0, 0, 0, 0, 0, 0, 0" +:+ NL) ]))
    by (vm_compute; reflexivity).
  split; [exact H1|].
  destruct (nic_poll_deltas _ _ _ _ _ H1)
    as (now & ts & net_stat & rows & _ & _ & _ & Hrows & Htr & _).
  exists rows. split; [exact Htr|].
  apply Forall2_length in Hrows. by rewrite <- Hrows.
Defined.

(** ** Computations that respect a relation between states

    [respects R m]: whichever way [m] ends, the state it leaves is related
    by [R] to the state it started in.  For a preorder [R] this goes through
    sequences, handlers and loops. *)

Section Respects.
Context {S : Type} (R : relation S) `{!PreOrder R}.

Lemma respects_ret {A} (a : A) : respects R (ret a).
Proof. intros s r s' [= _ <-]. reflexivity. Qed.

Lemma respects_raise {A} e : respects R (raise (A := A) e).
Proof. intros s r s' [= _ <-]. reflexivity. Qed.

Lemma respects_call {A} (r0 : outcome A) : respects R (call r0).
Proof. intros s r s' [= _ <-]. reflexivity. Qed.

Lemma respects_bind {A B} (m : M S A) (k : A → M S B) :
  respects R m → (∀ a, respects R (k a)) → respects R (x <- m ;; k x).
Proof.
  intros Hm Hk s r s' Hb.
  apply bind_inv in Hb as [(a & s1 & Hms & Hks)|[(e & Hms & _)|[Hms _]]].
  - transitivity s1; [by eapply Hm|by eapply Hk].
  - by eapply Hm.
  - by eapply Hm.
Qed.

Lemma respects_try_except {A} (body : M S A) handler :
  respects R body → (∀ e h, handler e = Some h → respects R h) →
  respects R (try_except body handler).
Proof.
  intros Hb Hh s r s'. unfold try_except.
  destruct (body s) as [[a|e|] s1] eqn:Hbody.
  - intros [= <- <-]. by eapply Hb.
  - destruct (handler e) as [h|] eqn:Hhe.
    + intros Hhs. transitivity s1; [by eapply Hb|by eapply Hh].
    + intros [= <- <-]. by eapply Hb.
  - intros [= <- <-]. by eapply Hb.
Qed.

Lemma respects_try_finally {A} (body : M S A) final :
  respects R body → respects R final → respects R (try_finally body final).
Proof.
  intros Hb Hf s r s'. unfold try_finally.
  destruct (body s) as [[a|e|] s1] eqn:Hbody.
  - destruct (final s1) as [[[]|e'|] s2] eqn:Hfinal; intros [= <- <-];
      (transitivity s1; [by eapply Hb|by eapply Hf]).
  - destruct (final s1) as [[[]|e'|] s2] eqn:Hfinal; intros [= <- <-];
      (transitivity s1; [by eapply Hb|by eapply Hf]).
  - intros [= <- <-]. by eapply Hb.
Qed.

Lemma respects_for_each {A} (l : list A) (body : A → M S unit) :
  (∀ x, respects R (body x)) → respects R (for_each l body).
Proof.
  intros Hb. induction l as [|x l IH]; cbn.
  - by apply respects_ret.
  - by apply respects_bind.
Qed.

End Respects.

#[global] Instance extends_by_preorder P : PreOrder (extends_by P).
Proof.
  split.
  - intros tr. exists []. by rewrite app_nil_r.
  - intros tr1 tr2 tr3 (es1 & -> & H1) (es2 & -> & H2).
    exists (es1 ++ es2). split; [by rewrite app_assoc|by apply Forall_app].
Qed.

#[global] Instance io_only_preorder : PreOrder io_only.
Proof. apply extends_by_preorder. Qed.

Lemma emit_io_only e : is_sched e = false → respects io_only (emit e).
Proof.
  intros He tr r tr' [= _ <-]. exists [e]. split; [done|]. by constructor.
Qed.

Lemma entered_app tr es : entered (tr ++ es) = entered tr ++ entered es.
Proof. unfold entered. apply omap_app. Qed.

Lemma ran_app tr es : ran (tr ++ es) = ran tr ++ ran es.
Proof. unfold ran. apply filter_app. Qed.

Lemma io_only_entered tr tr' : io_only tr tr' → entered tr' = entered tr.
Proof.
  intros (es & -> & Hes). rewrite entered_app.
  assert (entered es = []) as ->; [|by rewrite app_nil_r].
  induction Hes as [|e es He _ IH]; [done|].
  unfold entered in *. cbn. rewrite IH. by destruct e.
Qed.

Lemma io_only_ran tr tr' : io_only tr tr' → ran tr' = ran tr.
Proof.
  intros (es & -> & Hes). rewrite ran_app.
  assert (ran es = []) as ->; [|by rewrite app_nil_r].
  induction Hes as [|e es He _ IH]; [done|].
  unfold ran in *. rewrite filter_cons, IH. by destruct e.
Qed.

(** Proves that a computation built from the combinators respects a
    relation, given the facts [tac] proves about its leaves. *)
Ltac respects_with tac :=
  repeat first
    [ tac
    | apply respects_ret; apply _
    | apply respects_raise; apply _
    | apply respects_call; apply _
    | apply respects_bind; [apply _| |intros ?]
    | apply respects_try_except;
        [apply _| |intros ? ?; repeat case_match; intros [= <-]]
    | apply respects_try_finally; [apply _| |]
    | apply respects_for_each; [apply _|intros ?]
    | match goal with
      | |- respects _ (if ?b then _ else _) => destruct b
      | |- respects _ (match ?x with _ => _ end) => destruct x
      end ].

Create HintDb quiet.
#[global] Hint Resolve emit_io_only : quiet.

Ltac quiet := respects_with ltac:(solve [auto with quiet]).

Section MonitorsAreQuiet.
Context {repr : FloatRepr}.

Lemma print_io_only out text : respects io_only (print out text).
Proof. unfold print. quiet. Qed.

Lemma fopen_io_only path answer : respects io_only (fopen path answer).
Proof.
  unfold fopen. quiet.
  intros tr r tr'. cbn. intros [= _ <-]. eexists. split; [done|]. by constructor.
Qed.

Lemma fwrite_io_only out text answer : respects io_only (fwrite out text answer).
Proof. unfold fwrite. quiet. Qed.

Lemma fflush_io_only out answer : respects io_only (fflush out answer).
Proof. unfold fflush. quiet. Qed.

Lemma fclose_io_only out answer : respects io_only (fclose out answer).
Proof. unfold fclose. quiet. Qed.

Lemma sleep_io_only delay answer : respects io_only (Sched.sleep delay answer).
Proof. unfold Sched.sleep. quiet. Qed.

Lemma getitem_respects {S V} (R : relation S) `{!PreOrder R} (d : gmap string V) key :
  respects R (getitem d key).
Proof. unfold getitem. quiet. Qed.

Hint Resolve print_io_only fopen_io_only fwrite_io_only fflush_io_only
  fclose_io_only sleep_io_only : quiet.

Lemma chprio_io_only answer : respects io_only (Main.chprio answer).
Proof. unfold Main.chprio. quiet. Qed.

Lemma res_init_io_only outfile_name fl env :
  respects io_only (ResMonitor.__init__ outfile_name fl env).
Proof.
  unfold ResMonitor.__init__, ResMonitor._write_header, ResMonitor.open_outfile. quiet.
Qed.

Lemma res_poll_io_only self env : respects io_only (ResMonitor.poll_stat self env).
Proof. unfold ResMonitor.poll_stat. quiet. Qed.

Lemma res_close_io_only self answer : respects io_only (ResMonitor.close self answer).
Proof. unfold ResMonitor.close. quiet. Qed.

Lemma nic_poll_io_only self env :
  respects io_only (NetworkInterfaceMonitor.poll_stat self env).
Proof.
  unfold NetworkInterfaceMonitor.poll_stat, NetworkInterfaceMonitor.poll_nic.
  quiet; apply getitem_respects; apply _.
Qed.

Lemma open_nic_files_io_only pattern nics env d :
  respects io_only (NetworkInterfaceMonitor.open_nic_files pattern nics env d).
Proof.
  induction nics as [|nic rest IH] in d |- *; cbn [NetworkInterfaceMonitor.open_nic_files];
    unfold NetworkInterfaceMonitor.create_new_logfile; quiet.
Qed.

Lemma initial_stat_io_only nics env d :
  respects io_only (NetworkInterfaceMonitor.initial_stat nics env d).
Proof.
  induction nics as [|nic rest IH] in d |- *; cbn [NetworkInterfaceMonitor.initial_stat];
    quiet; apply getitem_respects; apply _.
Qed.

Hint Resolve open_nic_files_io_only initial_stat_io_only nic_poll_io_only : quiet.

Lemma nic_init_io_only pattern nics fl env :
  respects io_only (NetworkInterfaceMonitor.__init__ pattern nics fl env).
Proof. unfold NetworkInterfaceMonitor.__init__. quiet. Qed.

Lemma nic_close_io_only self answer :
  respects io_only (NetworkInterfaceMonitor.close self answer).
Proof. unfold NetworkInterfaceMonitor.close. quiet. Qed.

Lemma ps_enumerate_io_only self procs visited curr_stat :
  respects io_only (ProcessSetMonitor.enumerate self procs visited curr_stat).
Proof. intros tr r tr'. rewrite enumerate_tally. intros [= _ <-]. reflexivity. Qed.

Hint Resolve ps_enumerate_io_only : quiet.

Lemma ps_poll_io_only self env : respects io_only (ProcessSetMonitor.poll_stat self env).
Proof. unfold ProcessSetMonitor.poll_stat. quiet. Qed.

Hint Resolve ps_poll_io_only : quiet.

Lemma ps_init_io_only keywords pids outfile_name fl env :
  respects io_only (ProcessSetMonitor.__init__ keywords pids outfile_name fl env).
Proof.
  unfold ProcessSetMonitor.__init__, ProcessSetMonitor.open_outfile. quiet.
Qed.

Lemma ps_close_io_only self answer :
  respects io_only (ProcessSetMonitor.close self answer).
Proof. unfold ProcessSetMonitor.close. quiet. Qed.

End MonitorsAreQuiet.

#[global] Hint Resolve print_io_only fopen_io_only fwrite_io_only fflush_io_only
  fclose_io_only sleep_io_only chprio_io_only
  res_init_io_only res_poll_io_only res_close_io_only
  nic_init_io_only nic_poll_io_only nic_close_io_only
  ps_init_io_only ps_poll_io_only ps_close_io_only : quiet.

(** ** The state of [main] *)

#[global] Instance on_state_preorder Rf Rt :
  PreOrder Rf → PreOrder Rt → PreOrder (on_state Rf Rt).
Proof.
  intros Hf Ht. split.
  - intros s. split; reflexivity.
  - intros s1 s2 s3 [? ?] [? ?]. split; etransitivity; eassumption.
Qed.

#[global] Instance any_frame_preorder : PreOrder any_frame.
Proof. by split. Qed.

#[global] Instance same_flags_preorder : PreOrder same_flags.
Proof.
  split.
  - by intros f.
  - intros f1 f2 f3 [? ?] [? ?]. split; congruence.
Qed.

#[global] Instance no_enter_preorder : PreOrder no_enter.
Proof. apply extends_by_preorder. Qed.

Lemma io_only_no_enter tr tr' : io_only tr tr' → no_enter tr tr'.
Proof.
  intros (es & -> & Hes). exists es. split; [done|].
  eapply Forall_impl; [exact Hes|]. by intros [].
Qed.

Lemma no_enter_entered tr tr' : no_enter tr tr' → entered tr' = entered tr.
Proof.
  intros (es & -> & Hes). rewrite entered_app.
  assert (entered es = []) as ->; [|by rewrite app_nil_r].
  induction Hes as [|e es He _ IH]; [done|].
  unfold entered in *. cbn. rewrite IH. by destruct e.
Qed.

Section MainFacts.
Context {repr : FloatRepr}.
Import Main.

Lemma lift_respects {A} Rf Rt (m : M trace A) :
  Reflexive Rf → respects Rt m → respects (on_state Rf Rt) (lift m).
Proof.
  intros Hf Hm [f tr] r s'. unfold lift. cbn.
  destruct (m tr) as [r1 tr1] eqn:Hmtr. intros [= _ <-].
  split; [reflexivity|]. by eapply Hm.
Qed.

Lemma load_respects {A} (R : relation state) `{!PreOrder R} var (get : frame → option A) :
  respects R (load var get).
Proof. intros s r s'. unfold load. destruct (get s.1); intros [= _ <-]; reflexivity. Qed.

Lemma store_respects Rf Rt (set : frame → frame) :
  (∀ f, Rf f (set f)) → Reflexive Rt → respects (on_state Rf Rt) (store set).
Proof. intros Hset Ht s r s' [= _ <-]. split; [apply Hset|reflexivity]. Qed.

Lemma not_None_respects {A} (R : relation state) `{!PreOrder R} (v : option A) :
  respects R (not_None v).
Proof. unfold not_None. destruct v; [by apply respects_ret|by apply respects_raise]. Qed.

Lemma lift_io {A} (m : M trace A) :
  respects io_only m → respects (on_state any_frame io_only) (lift m).
Proof. intros Hm. apply lift_respects; [apply _|done]. Qed.

Lemma lift_flags_io {A} (m : M trace A) :
  respects io_only m → respects (on_state same_flags io_only) (lift m).
Proof. intros Hm. apply lift_respects; [apply _|done]. Qed.

(** A poll, as the scheduler runs it: input and output, and the flags stay. *)
Lemma run_action_respects target e :
  respects (on_state same_flags io_only) (run_action target e).
Proof.
  unfold run_action.
  respects_with ltac:(first
    [ apply lift_flags_io; solve [auto with quiet]
    | apply load_respects; apply _
    | apply not_None_respects; apply _
    | apply store_respects; [by intros []|apply _] ]).
Qed.

Lemma lift_emit e (s : state) : lift (emit e) s = (Ok tt, (s.1, s.2 ++ [e])).
Proof. by destruct s. Qed.

(** [scheduler.run()] on a queue: the flags stay, no event is entered, and
    the actions of the queue are called in its order, each returning before
    the next is called; all of them when [run] returns. *)
Lemma run_spec fuel e k q s r s' :
  run fuel e k q s = (r, s') →
  same_flags s.1 s'.1 ∧ no_enter s.2 s'.2
  ∧ ∃ done, ran s'.2 = ran s.2 ++ done
            ∧ done `prefix_of` calls (Sched.action <$> q)
            ∧ (r = Ok tt → done = calls (Sched.action <$> q)).
Proof.
  induction fuel as [|fuel IH] in k, q, s |- *; cbn [run].
  { intros [= <- <-]. split_and!; try reflexivity.
    exists []. rewrite app_nil_r. split_and!; [done|apply prefix_nil|done]. }
  destruct q as [|ev q].
  { intros [= <- <-]. split_and!; try reflexivity.
    exists []. rewrite app_nil_r. split_and!; [done|apply prefix_nil|done]. }
  assert (Hstop : ∀ r, r ≠ Ok tt →
            same_flags s.1 s.1 ∧ no_enter s.2 s.2
            ∧ ∃ done, ran s.2 = ran s.2 ++ done
                      ∧ done `prefix_of` calls (Sched.action <$> ev :: q)
                      ∧ (r = Ok tt → done = calls (Sched.action <$> ev :: q))).
  { intros r0 Hr0. split_and!; try reflexivity.
    exists []. rewrite app_nil_r. split_and!; [done|apply prefix_nil|done]. }
  intros Hrun.
  apply bind_inv in Hrun as [(now & s1 & [_ ->]%call_inv & Hrun)
                            |[(x & [_ ->]%call_inv & ->)|[[_ ->]%call_inv ->]]];
    [|(by apply Hstop)..].
  destruct (PrimFloat.ltb now (Sched.time ev)).
  - (* the first event is not due: sleep, and look again *)
    apply bind_inv in Hrun as [([] & s1 & Hsleep & Hrun)|[(x & Hsleep & ->)|[Hsleep ->]]].
    + apply (lift_flags_io _ (sleep_io_only _ _)) in Hsleep as [Hf Ht].
      apply IH in Hrun as (Hf' & Ht' & done & Hran & Hpre & Hall).
      split_and!.
      * by etransitivity.
      * etransitivity; [by apply io_only_no_enter|done].
      * exists done. by rewrite Hran, (io_only_ran _ _ Ht).
    + apply (lift_flags_io _ (sleep_io_only _ _)) in Hsleep as [Hf Ht].
      split_and!; [done|by apply io_only_no_enter|].
      exists []. rewrite app_nil_r.
      split_and!; [by apply io_only_ran|apply prefix_nil|done].
    + apply (lift_flags_io _ (sleep_io_only _ _)) in Hsleep as [Hf Ht].
      split_and!; [done|by apply io_only_no_enter|].
      exists []. rewrite app_nil_r.
      split_and!; [by apply io_only_ran|apply prefix_nil|done].
  - (* the first event is due: call its action *)
    set (m := Sched.action ev) in *.
    change (calls (Sched.action <$> ev :: q))
      with ([EvRun m; EvDone m] ++ calls (Sched.action <$> q)).
    rewrite bind_Ok with (a := tt) (s1 := (s.1, s.2 ++ [EvRun m])) in Hrun
      by apply lift_emit.
    assert (Hcalled : no_enter s.2 (s.2 ++ [EvRun m])).
    { exists [EvRun m]. split; [done|]. by constructor. }
    apply bind_inv in Hrun as [([] & s1 & Hact & Hrun)|[(x & Hact & ->)|[Hact ->]]].
    2,3: apply run_action_respects in Hact as [Hf Ht]; cbn in Hf, Ht;
         (split_and!; [done|etransitivity; [done|by apply io_only_no_enter]|]);
         exists [EvRun m]; rewrite (io_only_ran _ _ Ht), ran_app;
         (split_and!; [done|by exists ([EvDone m] ++ calls (Sched.action <$> q))|done]).
    apply run_action_respects in Hact as [Hf Ht]; cbn in Hf, Ht.
    rewrite bind_Ok with (a := tt) (s1 := (s1.1, s1.2 ++ [EvDone m])) in Hrun
      by apply lift_emit.
    assert (Hran1 : ran (s1.2 ++ [EvDone m]) = ran s.2 ++ [EvRun m; EvDone m]).
    { rewrite ran_app, (io_only_ran _ _ Ht), ran_app, <- app_assoc. done. }
    assert (Hne1 : no_enter s.2 (s1.2 ++ [EvDone m])).
    { etransitivity; [exact Hcalled|]. etransitivity; [by apply io_only_no_enter|].
      exists [EvDone m]. split; [done|]. by constructor. }
    apply bind_inv in Hrun as [([] & s2 & Hsleep & Hrun)|[(x & Hsleep & ->)|[Hsleep ->]]].
    2,3: apply (lift_flags_io _ (sleep_io_only _ _)) in Hsleep as [Hf' Ht'];
         cbn in Hf', Ht';
         (split_and!; [by etransitivity|etransitivity; [done|by apply io_only_no_enter]|]);
         exists [EvRun m; EvDone m]; rewrite (io_only_ran _ _ Ht'), Hran1;
         (split_and!; [done|by apply prefix_app_r|done]).
    apply (lift_flags_io _ (sleep_io_only _ _)) in Hsleep as [Hf' Ht']; cbn in Hf', Ht'.
    apply IH in Hrun as (Hf'' & Ht'' & done & Hran & Hpre & Hall).
    split_and!.
    + etransitivity; [done|]. by etransitivity.
    + etransitivity; [done|]. etransitivity; [by apply io_only_no_enter|done].
    + exists ([EvRun m; EvDone m] ++ done).
      rewrite Hran, (io_only_ran _ _ Ht'), Hran1, <- app_assoc.
      split_and!; [done|by apply prefix_app|]. intros Hr. by rewrite Hall.
Qed.

(** The [enterabs] calls of a tick, once the flags are bound: they cannot
    fail, they enter the events of the tick, and on an empty queue, with a
    fire time that equals itself, they leave the queue in the order of the
    priorities. *)
Lemma schedule_tick_spec a sch starttime i s nic_on ps_on :
  enable_nic_mon s.1 = Some nic_on → enable_ps_mon s.1 = Some ps_on →
  ∃ sch' es,
    schedule_tick a sch starttime i s = (Ok sch', (s.1, s.2 ++ es))
    ∧ entered es = tick_entries a starttime nic_on ps_on i
    ∧ ran es = []
    ∧ (Sched.queue sch = [] →
       PrimFloat.eqb (fire_time starttime i a) (fire_time starttime i a) = true →
       Sched.action <$> Sched.queue sch' = tick_order nic_on ps_on).
Proof.
  destruct s as [[f_rm f_nic f_nm f_ps f_pm] tr]. cbn. intros -> ->.
  unfold schedule_tick, Sched.enterabs, lift, load, bind, ret, emit.
  destruct nic_on, ps_on; cbn; eexists _, _;
    (split; [by rewrite <- ?app_assoc|]);
    (split; [done|]); (split; [done|]).
  all: intros -> Hself; unfold fire_time in *; cbn;
    repeat first [rewrite Hself | progress cbn | progress unfold Sched.before]; done.
Qed.

(** One tick: the events of the tick are entered, and nothing else is; the
    flags stay; the actions are called in the order of the queue. *)
Lemma tick_spec fuel a e sch starttime i s nic_on ps_on r s' :
  enable_nic_mon s.1 = Some nic_on → enable_ps_mon s.1 = Some ps_on →
  tick fuel a e sch starttime i s = (r, s') →
  same_flags s.1 s'.1
  ∧ entered s'.2 = entered s.2 ++ tick_entries a starttime nic_on ps_on i
  ∧ (∀ sch', r = Ok sch' → Sched.queue sch' = [])
  ∧ (Sched.queue sch = [] →
     PrimFloat.eqb (fire_time starttime i a) (fire_time starttime i a) = true →
     ∃ done, ran s'.2 = ran s.2 ++ done
             ∧ done `prefix_of` calls (tick_order nic_on ps_on)
             ∧ (∀ sch', r = Ok sch' → done = calls (tick_order nic_on ps_on))).
Proof.
  intros Hnic Hps Htick. unfold tick in Htick.
  destruct (schedule_tick_spec a sch starttime i s nic_on ps_on Hnic Hps)
    as (sch1 & es & Hsched & Hentered & Hran & Hqueue).
  rewrite (bind_Ok _ _ _ _ _ Hsched) in Htick.
  assert (Hrest : ∀ r1 s1,
            run fuel (e_tick e (Z.to_nat i)) 0 (Sched.queue sch1) (s.1, s.2 ++ es)
            = (r1, s1) →
            same_flags s.1 s1.1
            ∧ entered s1.2 = entered s.2 ++ tick_entries a starttime nic_on ps_on i
            ∧ (Sched.queue sch = [] →
               PrimFloat.eqb (fire_time starttime i a) (fire_time starttime i a) = true →
               ∃ done, ran s1.2 = ran s.2 ++ done
                       ∧ done `prefix_of` calls (tick_order nic_on ps_on)
                       ∧ (r1 = Ok tt → done = calls (tick_order nic_on ps_on)))).
  { intros r1 s1 (Hf & Ht & done & Hdone & Hpre & Hall)%run_spec. cbn in Hf, Ht, Hdone.
    split_and!; [done|by rewrite (no_enter_entered _ _ Ht), entered_app, Hentered|].
    intros Hq Hself. rewrite Hqueue in Hpre, Hall by done.
    exists done. split_and!; [|done..].
    by rewrite Hdone, ran_app, Hran, app_nil_r. }
  apply bind_inv in Htick as [([] & s1 & Hrun & Hret)|[(x & Hrun & ->)|[Hrun ->]]].
  - injection Hret as <- <-. apply Hrest in Hrun as (Hf & Hent & Hran').
    split_and!; [done|done|by intros ? [= <-]|].
    intros Hq Hself. destruct (Hran' Hq Hself) as (done & ? & ? & Hall).
    exists done. split_and!; [done|done|]. intros _ _. by apply Hall.
  - apply Hrest in Hrun as (Hf & Hent & Hran').
    split_and!; [done|done|done|].
    intros Hq Hself. destruct (Hran' Hq Hself) as (done & ? & ? & Hall).
    exists done. by split_and!.
  - apply Hrest in Hrun as (Hf & Hent & Hran').
    split_and!; [done|done|done|].
    intros Hq Hself. destruct (Hran' Hq Hself) as (done & ? & ? & Hall).
    exists done. by split_and!.
Qed.

Lemma ticks_S i n : ticks i (S n) = i :: ticks (i + 1) n.
Proof.
  unfold ticks. cbn [seq fmap list_fmap]. f_equal; [f_equal; lia|].
  rewrite <- seq_shift, <- list_fmap_compose. apply list_fmap_ext.
  intros _ k _. cbn. lia.
Qed.

(** The loop from tick [i] on: whichever way it ends, it has entered the
    events of the ticks [i], [i + 1], ... up to some tick, and no other. *)
Lemma loop_spec fuel a e sch starttime i s nic_on ps_on r s' :
  enable_nic_mon s.1 = Some nic_on → enable_ps_mon s.1 = Some ps_on →
  loop fuel a e sch starttime i s = (r, s') →
  same_flags s.1 s'.1
  ∧ ∃ n, entered s'.2
         = entered s.2
           ++ concat (tick_entries a starttime nic_on ps_on <$> ticks i n).
Proof.
  induction fuel as [|fuel IH] in sch, i, s |- *; cbn [loop]; intros Hnic Hps.
  { intros [= <- <-]. split; [done|]. exists 0%nat. by rewrite app_nil_r. }
  intros Hloop.
  apply bind_inv in Hloop as [(sch1 & s1 & Htick & Hloop)|[(x & Htick & ->)|[Htick ->]]].
  - apply (tick_spec _ _ _ _ _ _ _ _ _ _ _ Hnic Hps) in Htick as (Hf1 & Hent & _).
    pose proof Hf1 as [Hn Hp].
    apply IH in Hloop as (Hf & n & Hent'); [|congruence..].
    split; [by etransitivity|]. exists (S n).
    by rewrite Hent', Hent, ticks_S, <- app_assoc.
  - apply (tick_spec _ _ _ _ _ _ _ _ _ _ _ Hnic Hps) in Htick as (Hf & Hent & _).
    split; [done|]. exists 1%nat. rewrite Hent. cbn.
    by rewrite app_nil_r, Z.add_0_r.
  - apply (tick_spec _ _ _ _ _ _ _ _ _ _ _ Hnic Hps) in Htick as (Hf & Hent & _).
    split; [done|]. exists 1%nat. rewrite Hent. cbn.
    by rewrite app_nil_r, Z.add_0_r.
Qed.

(** The loop from tick [i] on, seen by the calls of actions: whole ticks in
    the order of the priorities, and the tick at which it ended. *)
Lemma loop_ran fuel a e sch starttime i s nic_on ps_on r s' :
  enable_nic_mon s.1 = Some nic_on → enable_ps_mon s.1 = Some ps_on →
  Sched.queue sch = [] →
  (∀ j, i ≤ j < i + Z.of_nat fuel →
        PrimFloat.eqb (fire_time starttime j a) (fire_time starttime j a) = true) →
  loop fuel a e sch starttime i s = (r, s') →
  ∃ k done,
    ran s'.2 = ran s.2 ++ concat (replicate k (calls (tick_order nic_on ps_on))) ++ done
    ∧ done `prefix_of` calls (tick_order nic_on ps_on).
Proof.
  induction fuel as [|fuel IH] in sch, i, s |- *; cbn [loop];
    intros Hnic Hps Hq Hself.
  { intros [= <- <-]. exists 0%nat, []. cbn. rewrite app_nil_r.
    split; [done|apply prefix_nil]. }
  intros Hloop.
  assert (Hi : PrimFloat.eqb (fire_time starttime i a) (fire_time starttime i a) = true)
    by (apply Hself; lia).
  apply bind_inv in Hloop as [(sch1 & s1 & Htick & Hloop)|[(x & Htick & ->)|[Htick ->]]].
  - apply (tick_spec _ _ _ _ _ _ _ _ _ _ _ Hnic Hps) in Htick
      as ([Hn Hp] & _ & Hq1 & Hran).
    destruct (Hran Hq Hi) as (done1 & Hran1 & _ & Hall).
    rewrite (Hall _ eq_refl) in Hran1.
    apply IH in Hloop as (k & done & Hran2 & Hpre);
      [|congruence|congruence|by eapply Hq1|intros j Hj; apply Hself; lia].
    exists (S k), done. split; [|done].
    rewrite Hran2, Hran1. cbn. by rewrite <- !app_assoc.
  - apply (tick_spec _ _ _ _ _ _ _ _ _ _ _ Hnic Hps) in Htick as (_ & _ & _ & Hran).
    destruct (Hran Hq Hi) as (done1 & Hran1 & Hpre & _).
    by exists 0%nat, done1.
  - apply (tick_spec _ _ _ _ _ _ _ _ _ _ _ Hnic Hps) in Htick as (_ & _ & _ & Hran).
    destruct (Hran Hq Hi) as (done1 & Hran1 & Hpre & _).
    by exists 0%nat, done1.
Qed.

Lemma lift_frame {A} (m : M trace A) s r s' : lift m s = (r, s') → s'.1 = s.1.
Proof. unfold lift. destruct (m s.2). by intros [= _ <-]. Qed.

Lemma startup_respects a e : respects (on_state any_frame io_only) (startup a e).
Proof.
  unfold startup.
  respects_with ltac:(first
    [ apply lift_io; solve [auto with quiet]
    | apply store_respects; [done|apply _] ]).
Qed.

(** When the startup is through, the two flags are bound as the command line
    says. *)
Lemma startup_flags a e s s' :
  startup a e s = (Ok tt, s') →
  enable_nic_mon s'.1 = Some (nic_enabled a)
  ∧ enable_ps_mon s'.1 = Some (ps_enabled a).
Proof.
  unfold startup, nic_enabled, ps_enabled. intros Hs.
  apply bind_Ok_inv in Hs as ([] & s1 & H1%lift_frame & Hs).
  apply bind_Ok_inv in Hs as (self & s2 & H2%lift_frame & Hs).
  apply bind_Ok_inv in Hs as ([] & s3 & [= <-] & Hs).
  apply bind_Ok_inv in Hs as ([] & s4 & [= <-] & Hs).
  apply bind_Ok_inv in Hs as (v & s5 & H5 & Hs).
  assert (s5.1 = set_enable_nic_mon (bool_decide (nic a ≠ None)) (set_rm self s2.1)) as H5'.
  { destruct (bool_decide (nic a ≠ None)).
    - apply bind_Ok_inv in H5 as (? & ? & ?%lift_frame & [= _ <-]). done.
    - by injection H5 as _ <-. }
  apply bind_Ok_inv in Hs as ([] & s6 & [= <-] & Hs).
  apply bind_Ok_inv in Hs as ([] & s7 & [= <-] & Hs).
  apply bind_Ok_inv in Hs as (w & s8 & H8 & Hs).
  injection Hs as <-. cbn.
  match type of H8 with
  | (if ?b then _ else _) ?s = _ =>
      assert (s8.1 = s.1) as -> by
        (destruct b;
         [apply bind_Ok_inv in H8 as (? & ? & ?%lift_frame & [= _ <-]); done
         |by injection H8 as _ <-])
  end.
  cbn. by rewrite H5'.
Qed.

Lemma cleanup_respects e : respects (on_state any_frame io_only) (cleanup e).
Proof.
  unfold cleanup.
  respects_with ltac:(first
    [ apply lift_io; solve [auto with quiet]
    | apply load_respects; apply _
    | apply not_None_respects; apply _ ]).
Qed.

(** A run of [main] is the body of its [try] statement, followed by input
    and output only. *)
Lemma main_inv fuel a e s r s' :
  main fuel a e s = (r, s') →
  ∃ r1 s1, startup_and_loop fuel a e s = (r1, s1) ∧ io_only s1.2 s'.2.
Proof.
  unfold main. intros Hm.
  destruct (startup_and_loop fuel a e s) as [r1 s1] eqn:Hbody.
  exists r1, s1. split; [done|].
  assert (Hhandler : respects (on_state any_frame io_only)
            (lift (print Stdout "Monitoring interrupted. Exiting."))).
  { apply lift_io. auto with quiet. }
  unfold try_finally, try_except in Hm. rewrite Hbody in Hm.
  destruct r1 as [[]|x|].
  - destruct (cleanup e s1) as [rc sc] eqn:Hc.
    apply cleanup_respects in Hc as [_ Hc]. by destruct rc; injection Hm as _ <-.
  - destruct x;
      try (destruct (cleanup e s1) as [rc sc] eqn:Hc;
           apply cleanup_respects in Hc as [_ Hc]; by destruct rc; injection Hm as _ <-).
    destruct (lift (print Stdout "Monitoring interrupted. Exiting.") s1)
      as [rh sh] eqn:Hh.
    apply Hhandler in Hh as [_ Hh].
    destruct rh as [[]|x|].
    + destruct (cleanup e sh) as [rc sc] eqn:Hc.
      apply cleanup_respects in Hc as [_ Hc].
      destruct rc; injection Hm as _ <-; by etransitivity.
    + destruct (cleanup e sh) as [rc sc] eqn:Hc.
      apply cleanup_respects in Hc as [_ Hc].
      destruct rc; injection Hm as _ <-; by etransitivity.
    + by injection Hm as _ <-.
  - by injection Hm as _ <-.
Qed.

(** What the trace of a run shows of the scheduler: the events of the ticks
    1, 2, ... up to some tick were entered, at the fire times counted from
    the clock reading taken once before the loop; and, when these fire times
    equal themselves, the actions were called tick after tick in the order
    of the priorities, each returning before the next was called. *)
Lemma run_script_spec fuel a e r s :
  run_script fuel a e = (r, s) →
  ∃ n starttime,
    entered s.2
    = concat (tick_entries a starttime (nic_enabled a) (ps_enabled a) <$> ticks 1 n)
    ∧ (n ≠ 0%nat → e_time e = Ok starttime)
    ∧ ((∀ st j, e_time e = Ok st → 1 ≤ j ≤ Z.of_nat fuel →
                PrimFloat.eqb (fire_time st j a) (fire_time st j a) = true) →
       ∃ k done,
         ran s.2
         = concat (replicate k (calls (tick_order (nic_enabled a) (ps_enabled a)))) ++ done
         ∧ done `prefix_of` calls (tick_order (nic_enabled a) (ps_enabled a))).
Proof.
  unfold run_script. intros (r1 & s1 & Hbody & Hio)%main_inv.
  rewrite (io_only_entered _ _ Hio), (io_only_ran _ _ Hio). clear Hio r s.
  assert (Hnone : ∀ s0 : state, io_only [] s0.2 →
            ∃ n starttime,
              entered s0.2
              = concat (tick_entries a starttime (nic_enabled a) (ps_enabled a)
                          <$> ticks 1 n)
              ∧ (n ≠ 0%nat → e_time e = Ok starttime)
              ∧ ((∀ st j, e_time e = Ok st → 1 ≤ j ≤ Z.of_nat fuel →
                          PrimFloat.eqb (fire_time st j a) (fire_time st j a) = true) →
                 ∃ k done,
                   ran s0.2
                   = concat (replicate k
                               (calls (tick_order (nic_enabled a) (ps_enabled a))))
                     ++ done
                   ∧ done `prefix_of` calls (tick_order (nic_enabled a) (ps_enabled a)))).
  { intros s0 Hs0. exists 0%nat, 0%float.
    rewrite (io_only_entered _ _ Hs0), (io_only_ran _ _ Hs0).
    split_and!; [done|done|]. intros _. exists 0%nat, []. split; [done|apply prefix_nil]. }
  unfold startup_and_loop in Hbody.
  apply bind_inv in Hbody as [([] & s2 & Hstart & Hbody)|[(x & Hstart & ->)|[Hstart ->]]].
  2,3: apply startup_respects in Hstart as [_ Hio]; by apply Hnone.
  pose proof (startup_flags _ _ _ _ Hstart) as [Hnic Hps].
  apply startup_respects in Hstart as [_ Hio]. cbn in Hio.
  apply bind_inv in Hbody as [(starttime & s3 & [He ->]%call_inv & Hbody)
                             |[(x & [_ ->]%call_inv & ->)|[[_ ->]%call_inv ->]]].
  2,3: by apply Hnone.
  pose proof (loop_spec _ _ _ _ _ _ _ _ _ _ _ Hnic Hps Hbody) as (_ & n & Hent).
  exists n, starttime. split_and!.
  - by rewrite Hent, (io_only_entered _ _ Hio).
  - done.
  - intros Hself.
    assert (Hself' : ∀ j, 1 ≤ j < 1 + Z.of_nat fuel →
              PrimFloat.eqb (fire_time starttime j a) (fire_time starttime j a) = true)
      by (intros j Hj; apply Hself; [done|lia]).
    destruct (loop_ran _ _ _ Sched.empty _ _ _ _ _ _ _ Hnic Hps eq_refl Hself' Hbody)
      as (k & done & Hran & Hpre).
    exists k, done. by rewrite Hran, (io_only_ran _ _ Hio).
Qed.

End MainFacts.

Section SchedulerClaims.
Context {repr : FloatRepr}.
Import Main.

(** C2.  In every run of the script, however it ends and whatever the clock
    and the polls did, the events entered with [enterabs] are those of the
    ticks 1, 2, ..., [n] in this order, for some [n]: the events of tick [i]
    all carry the fire time [starttime + i * delay], where [starttime] is the
    one clock reading taken before the loop.  With a start at 1000 and a
    delay of 5 the fire time of tick 3 is 1015. *)
Theorem loop_cadence fuel a e r s :
  run_script fuel a e = (r, s) →
  ∃ n starttime,
    entered s.2
    = concat (tick_entries a starttime (nic_enabled a) (ps_enabled a) <$> ticks 1 n)
    ∧ (n ≠ 0%nat → e_time e = Ok starttime)
    ∧ (∀ i, tick_entries a starttime (nic_enabled a) (ps_enabled a) i
            = (λ pm, ((starttime + float_of_int (i * delay a))%float, pm.1, pm.2))
              <$> ((2, Res) :: (if nic_enabled a then [(1, Nic)] else [])
                   ++ (if ps_enabled a then [(0, Ps)] else [])))
    ∧ (delay a = 5 → fire_time 1000%float 3 a = 1015%float).
Proof.
  intros (n & starttime & Hent & Hstart & _)%run_script_spec.
  exists n, starttime. split_and!; [done|done| |].
  - intros i. unfold tick_entries, fire_time. by destruct (nic_enabled a), (ps_enabled a).
  - unfold fire_time. intros ->. by vm_compute.
Qed.

(** C9.  In every run of the script in which the fire times are numbers (each
    equals itself), however it ends: the events of a tick are entered with the
    priorities 2, 1 and 0 for the resource, network and process-set polls,
    and the actions are called tick after tick in the order process set,
    network, resource (those that are enabled), each returning before the
    next is called; the run ends within a tick, after some of its calls. *)
Theorem polls_run_in_priority_order fuel a e r s :
  (∀ starttime j, e_time e = Ok starttime → 1 ≤ j ≤ Z.of_nat fuel →
     PrimFloat.eqb (fire_time starttime j a) (fire_time starttime j a) = true) →
  run_script fuel a e = (r, s) →
  ∃ n starttime k done,
    entered s.2
    = concat (tick_entries a starttime (nic_enabled a) (ps_enabled a) <$> ticks 1 n)
    ∧ ran s.2
      = concat (replicate k (calls (tick_order (nic_enabled a) (ps_enabled a)))) ++ done
    ∧ done `prefix_of` calls (tick_order (nic_enabled a) (ps_enabled a))
    ∧ calls (tick_order true true)
      = [EvRun Ps; EvDone Ps; EvRun Nic; EvDone Nic; EvRun Res; EvDone Res].
Proof.
  intros Hself (n & starttime & Hent & Hstart & Hran)%run_script_spec.
  destruct (Hran Hself) as (k & done & Hk & Hpre).
  by exists n, starttime, k, done.
Qed.

End SchedulerClaims.

(** The theorem on a run of four ticks in which every poll is late: the clock
    reads 1030 from the first tick on, and the fire times are 1005, 1010, 1015
    and 1020 all the same. *)
Lemma loop_cadence_witness :
  Main.run_script (repr := binary_repr) 10 Examples.main_args
    (Examples.main_env (Examples.nic_init ["eth0"; "lo"; "wlan0"]) 4)
  = (Examples.late_run.1, Examples.late_run.2)
  ∧ (∃ n starttime,
       entered Examples.late_run.2.2
       = concat (tick_entries Examples.main_args starttime true true <$> ticks 1 n)
       ∧ (n ≠ 0%nat → Ok 1000%float = Ok starttime))
  ∧ entered Examples.late_run.2.2
    = [ (1005%float, 2, Res); (1005%float, 1, Nic); (1005%float, 0, Ps);
        (1010%float, 2, Res); (1010%float, 1, Nic); (1010%float, 0, Ps);
        (1015%float, 2, Res); (1015%float, 1, Nic); (1015%float, 0, Ps);
        (1020%float, 2, Res); (1020%float, 1, Nic); (1020%float, 0, Ps) ].
Proof.
  assert (H1 : Main.run_script (repr := binary_repr) 10 Examples.main_args
                 (Examples.main_env (Examples.nic_init ["eth0"; "lo"; "wlan0"]) 4)
               = (Examples.late_run.1, Examples.late_run.2))
    by (vm_compute; reflexivity).
  split; [exact H1|]. split; [|by vm_compute].
  destruct (loop_cadence _ _ _ _ _ H1) as (n & starttime & Hent & Hstart & _).
  assert (nic_enabled Examples.main_args = true) as Hnic by (by vm_compute).
  assert (ps_enabled Examples.main_args = true) as Hps by (by vm_compute).
  rewrite Hnic, Hps in Hent.
  exists n, starttime. split; [exact Hent|exact Hstart].
Defined.

(** The theorem on the same run: four times process set, network, resource,
    the last resource poll not returning. *)
Lemma polls_run_in_priority_order_witness :
  Main.run_script (repr := binary_repr) 10 Examples.main_args
    (Examples.main_env (Examples.nic_init ["eth0"; "lo"; "wlan0"]) 4)
  = (Examples.late_run.1, Examples.late_run.2)
  ∧ (∃ k done,
       ran Examples.late_run.2.2 = concat (replicate k (calls [Ps; Nic; Res])) ++ done
       ∧ done `prefix_of` calls [Ps; Nic; Res])
  ∧ ran Examples.late_run.2.2
    = concat (replicate 3 (calls [Ps; Nic; Res]))
      ++ [EvRun Ps; EvDone Ps; EvRun Nic; EvDone Nic; EvRun Res].
Proof.
  assert (H1 : Main.run_script (repr := binary_repr) 10 Examples.main_args
                 (Examples.main_env (Examples.nic_init ["eth0"; "lo"; "wlan0"]) 4)
               = (Examples.late_run.1, Examples.late_run.2))
    by (vm_compute; reflexivity).
  split; [exact H1|]. split; [|by vm_compute].
  assert (Hself : ∀ starttime j,
            Main.e_time (Examples.main_env (Examples.nic_init ["eth0"; "lo"; "wlan0"]) 4)
            = Ok starttime →
            1 ≤ j ≤ Z.of_nat 10 →
            PrimFloat.eqb (Main.fire_time starttime j Examples.main_args)
              (Main.fire_time starttime j Examples.main_args) = true).
  { intros starttime j [= <-] Hj.
    assert (j = 1 ∨ j = 2 ∨ j = 3 ∨ j = 4 ∨ j = 5 ∨ j = 6 ∨ j = 7 ∨ j = 8 ∨ j = 9 ∨ j = 10)
      as Hcases by lia.
    repeat (destruct Hcases as [->|Hcases]; [by vm_compute|]).
    subst j. by vm_compute. }
  destruct (polls_run_in_priority_order _ _ _ _ _ Hself H1)
    as (n & starttime & k & done & _ & Hran & Hpre & _).
  assert (nic_enabled Examples.main_args = true) as Hnic by (by vm_compute).
  assert (ps_enabled Examples.main_args = true) as Hps by (by vm_compute).
  rewrite Hnic, Hps in Hran, Hpre.
  exists k, done. split; [exact Hran|exact Hpre].
Defined.

Section StartupClaims.
Context {repr : FloatRepr}.
Import Main.

(** Requested names the host does not have are passed over: the dict of log
    files is built as if they had not been requested. *)
Lemma open_nic_files_filter pattern nics env existing d tr :
  NetworkInterfaceMonitor.i_net_if_stats env = Ok existing →
  NetworkInterfaceMonitor.open_nic_files pattern nics env d tr
  = NetworkInterfaceMonitor.open_nic_files pattern
      (filter (λ n, n ∈ existing) nics) env d tr.
Proof.
  intros Hstats. induction nics as [|nic rest IH] in d, tr |- *; [done|].
  rewrite filter_cons. cbn [NetworkInterfaceMonitor.open_nic_files].
  destruct (decide (nic ∈ existing)) as [Hin|Hout].
  - cbn [NetworkInterfaceMonitor.open_nic_files].
    unfold bind, call. rewrite Hstats. repeat case_decide; try done.
    destruct (NetworkInterfaceMonitor.create_new_logfile pattern nic env tr)
      as [[f| |] tr1]; [apply IH|done..].
  - unfold bind, call. rewrite Hstats. repeat case_decide; done || apply IH.
Qed.

Lemma nic_init_no_files pattern nics fl env existing tr :
  NetworkInterfaceMonitor.i_net_if_stats env = Ok existing →
  (∀ n, n ∈ default [] nics → n ∉ existing) →
  NetworkInterfaceMonitor.__init__ pattern nics fl env tr
  = (Raise (ValueError "No NIC to monitor."),
     tr ++ [EvWrite Stderr ("NIC monitor started." +:+ NL)]).
Proof.
  intros Hstats Hnone. unfold NetworkInterfaceMonitor.__init__.
  unfold bind at 1. unfold print, emit at 1. unfold bind at 1.
  rewrite (open_nic_files_filter _ _ _ _ _ _ Hstats).
  replace (filter (λ n, n ∈ existing) (default [] nics)) with (@nil string); [done|].
  symmetry. induction (default [] nics) as [|n l IH]; [done|].
  rewrite filter_cons, decide_False by (apply Hnone; left).
  apply IH. intros n' Hn'. apply Hnone. by right.
Qed.

(** The startup cannot get past a network monitor without an interface: it
    fails before the resource monitor is bound, or with the network monitor
    enabled and not bound. *)
Lemma startup_no_interface a e nics existing tr r s :
  nic a = Some nics →
  NetworkInterfaceMonitor.i_net_if_stats (e_nic_init e) = Ok existing →
  (∀ n, n ∈ nics → n ∉ existing) →
  startup a e (unbound, tr) = (r, s) →
  r ≠ Ok tt
  ∧ (rm s.1 = None ∨ enable_nic_mon s.1 = Some true ∧ nm s.1 = None).
Proof.
  intros Hnic Hstats Hnone. unfold startup. rewrite Hnic. intros Hs.
  apply bind_inv in Hs as [([] & s1 & H1 & Hs)|[(x & H1 & ->)|[H1 ->]]].
  2,3: apply lift_frame in H1; split; [done|left; by rewrite H1].
  apply lift_frame in H1.
  apply bind_inv in Hs as [(self & s2 & H2 & Hs)|[(x & H2 & ->)|[H2 ->]]].
  2,3: apply lift_frame in H2; split; [done|left; by rewrite H2, H1].
  apply lift_frame in H2.
  unfold store, bind at 1 in Hs. unfold bind at 1 in Hs.
  rewrite bool_decide_true in Hs by done.
  unfold bind at 1 in Hs. unfold bind at 1 in Hs. unfold lift at 1 in Hs.
  cbn [fst snd] in Hs.
  rewrite (nic_init_no_files _ _ _ _ _ _ Hstats) in Hs by done.
  injection Hs as <- <-. split; [done|]. right. cbn. by rewrite H2, H1.
Qed.

(** With the resource monitor not bound, or the network monitor enabled and
    not bound, the [finally] clause does not come to its end. *)
Lemma cleanup_unbound e f tr r s :
  rm f = None ∨ enable_nic_mon f = Some true ∧ nm f = None →
  cleanup e (f, tr) = (r, s) → r ≠ Ok tt.
Proof.
  intros Hf. unfold cleanup. unfold bind at 1, load at 1. cbn [fst snd].
  destruct (rm f) as [self|] eqn:Hrm; [|by intros [= <- _]].
  destruct Hf as [?|[Hnic Hnm]]; [done|].
  intros Hc.
  apply bind_inv in Hc as [([] & s1 & H1 & Hc)|[(x & H1 & ->)|[H1 ->]]]; [|done..].
  apply lift_frame in H1. cbn in H1.
  unfold bind at 1, load at 1 in Hc. rewrite H1, Hnic in Hc.
  unfold bind at 1 in Hc. unfold bind at 1, load at 1 in Hc.
  rewrite H1, Hnm in Hc. by injection Hc as <- _.
Qed.

(** C8.  On a host whose interfaces are [existing]: the constructor of
    [NetworkInterfaceMonitor] builds its dict of log files as if the
    requested names that are not in [existing] had not been requested; when
    no requested name is in [existing] it raises [ValueError('No NIC to
    monitor.')] right after its start notice, having opened no file; and a
    run of the script with such a [--nic] list never enters an event nor
    calls a poll, and does not end with [main] returning: the exit status
    is not 0. *)
Theorem nic_init_no_interface env existing :
  NetworkInterfaceMonitor.i_net_if_stats env = Ok existing →
  (∀ pattern nics d tr,
     NetworkInterfaceMonitor.open_nic_files pattern nics env d tr
     = NetworkInterfaceMonitor.open_nic_files pattern
         (filter (λ n, n ∈ existing) nics) env d tr)
  ∧ (∀ pattern nics fl tr,
       (∀ n, n ∈ default [] nics → n ∉ existing) →
       NetworkInterfaceMonitor.__init__ pattern nics fl env tr
       = (Raise (ValueError "No NIC to monitor."),
          tr ++ [EvWrite Stderr ("NIC monitor started." +:+ NL)]))
  ∧ (∀ fuel a e nics r s,
       e_nic_init e = env → nic a = Some nics →
       (∀ n, n ∈ nics → n ∉ existing) →
       run_script fuel a e = (r, s) →
       r ≠ Ok tt ∧ exit_status r ≠ Some 0 ∧ entered s.2 = [] ∧ ran s.2 = []).
Proof.
  intros Hstats. split_and!.
  - intros. by apply open_nic_files_filter.
  - intros. by eapply nic_init_no_files.
  - intros fuel a e nics r s <- Hnic Hnone Hrun.
    assert (Hr : r ≠ Ok tt); [|split_and!; [done|by destruct r as [[]| |]|..]].
    + unfold run_script, main, try_finally, try_except in Hrun.
      destruct (startup_and_loop fuel a e (unbound, [])) as [r1 [f1 tr1]] eqn:Hbody.
      assert (r1 ≠ Ok tt
              ∧ (rm f1 = None ∨ enable_nic_mon f1 = Some true ∧ nm f1 = None))
        as [Hr1 Hf1].
      { unfold startup_and_loop in Hbody.
        apply bind_inv in Hbody as [([] & s2 & Hstart & _)|[(x & Hstart & ->)|[Hstart ->]]];
          apply (startup_no_interface _ _ _ _ _ _ _ Hnic Hstats Hnone) in Hstart
            as [Hr Hf]; done. }
      destruct r1 as [[]|x|]; [done| |by injection Hrun as <- _].
      destruct x;
        try (destruct (cleanup e (f1, tr1)) as [rc sc] eqn:Hc;
             apply (cleanup_unbound _ _ _ _ _ Hf1) in Hc;
             by destruct rc as [[]| |]; injection Hrun as <- _).
      unfold lift, print, emit in Hrun. cbn [fst snd] in Hrun.
      destruct (cleanup e (f1, tr1 ++ [EvWrite Stdout
                  ("Monitoring interrupted. Exiting." +:+ NL)])) as [rc sc] eqn:Hc.
      apply (cleanup_unbound _ _ _ _ _ Hf1) in Hc.
      by destruct rc as [[]| |]; injection Hrun as <- _.
    + apply main_inv in Hrun as (r1 & s1 & Hbody & Hio).
      rewrite (io_only_entered _ _ Hio).
      unfold startup_and_loop in Hbody.
      apply bind_inv in Hbody as [([] & s2 & Hstart & _)|[(x & Hstart & ->)|[Hstart ->]]].
      * by apply (startup_no_interface _ _ _ _ _ _ _ Hnic Hstats Hnone) in Hstart as [? _].
      * apply startup_respects in Hstart as [_ Hio']. by apply io_only_entered in Hio'.
      * apply startup_respects in Hstart as [_ Hio']. by apply io_only_entered in Hio'.
    + apply main_inv in Hrun as (r1 & s1 & Hbody & Hio).
      rewrite (io_only_ran _ _ Hio).
      unfold startup_and_loop in Hbody.
      apply bind_inv in Hbody as [([] & s2 & Hstart & _)|[(x & Hstart & ->)|[Hstart ->]]].
      * by apply (startup_no_interface _ _ _ _ _ _ _ Hnic Hstats Hnone) in Hstart as [? _].
      * apply startup_respects in Hstart as [_ Hio']. by apply io_only_ran in Hio'.
      * apply startup_respects in Hstart as [_ Hio']. by apply io_only_ran in Hio'.
Qed.

End StartupClaims.

(** The theorem on a host with the interfaces [eth0], [lo] and [wlan0], asked
    for [bogus0] and [bogus1]. *)
Lemma nic_init_no_interface_witness :
  NetworkInterfaceMonitor.__init__ NetworkInterfaceMonitor.default_pattern
    (Some ["bogus0"; "bogus1"]) false (Examples.nic_init ["eth0"; "lo"; "wlan0"]) []
  = (Raise (ValueError "No NIC to monitor."),
     [EvWrite Stderr ("NIC monitor started." +:+ NL)])
  ∧ Examples.bogus_run.1 ≠ Ok tt
  ∧ Main.exit_status Examples.bogus_run.1 ≠ Some 0
  ∧ entered Examples.bogus_run.2.2 = []
  ∧ ran Examples.bogus_run.2.2 = [].
Proof.
  assert (Hnone : ∀ n, n ∈ ["bogus0"; "bogus1"] →
            n ∉ (list_to_set ["eth0"; "lo"; "wlan0"] : gset string)).
  { intros n Hin. elem_cases Hin; apply (bool_decide_unpack _); by vm_compute. }
  destruct (nic_init_no_interface (repr := binary_repr)
              (Examples.nic_init ["eth0"; "lo"; "wlan0"]) _ eq_refl)
    as (_ & Hinit & Hmain).
  split; [by apply Hinit|].
  apply (Hmain 10%nat Examples.bogus_args
           (Examples.main_env (Examples.nic_init ["eth0"; "lo"; "wlan0"]) 4)
           ["bogus0"; "bogus1"]); [done|done|exact Hnone|by vm_compute].
Defined.

Section CleanupClaims.
Import Main.

(** C3, where the script falls short of it.  Ctrl-C arrives while the
    constructor of the network monitor makes its first poll, the two log
    files being open: the notice is printed and the resource monitor is
    closed, but the [finally] clause then reads [nm], which is not bound;
    [UnboundLocalError] leaves [main], the exit status is 1, and the two log
    files are not closed.  The loop is not reached, whatever the fuel. *)
Theorem interrupt_during_startup fuel :
  run_script (repr := binary_repr) fuel Examples.main_args
    (Examples.main_env Examples.nic_init_interrupted 4)
  = Examples.interrupted_startup
  ∧ Examples.interrupted_startup.1 = Raise (UnboundLocalError "nm")
  ∧ exit_status Examples.interrupted_startup.1 = Some 1
  ∧ file_events Examples.interrupted_startup.2.2
    = [EvOpen 0 "netstat.eth0.csv"; EvOpen 1 "netstat.lo.csv"]
  ∧ printed Stderr Examples.interrupted_startup.2.2
    = [ "Warning: failed to elevate priority!" +:+ NL;
        "Resource monitor started." +:+ NL;
        "NIC monitor started." +:+ NL;
        "Resource monitor closed." +:+ NL ]
  ∧ last (printed Stdout Examples.interrupted_startup.2.2)
    = Some ("Monitoring interrupted. Exiting." +:+ NL)
  ∧ nm Examples.interrupted_startup.2.1 = None.
Proof. split_and!; by vm_compute. Qed.

(** Ctrl-C during a poll of the loop: every monitor is closed once, in the
    order of the [finally] clause, the notice is the last line on standard
    output, and [main] returns. *)
Lemma interrupt_during_poll :
  run_script (repr := binary_repr) 10 Examples.main_args
    (Examples.main_env (Examples.nic_init ["eth0"; "lo"; "wlan0"]) 4)
  = Examples.late_run
  ∧ Examples.late_run.1 = Ok tt
  ∧ exit_status Examples.late_run.1 = Some 0
  ∧ file_events Examples.late_run.2.2
    = [ EvOpen 0 "netstat.eth0.csv"; EvOpen 1 "netstat.lo.csv"; EvOpen 2 "resprofile.csv";
        EvClose (File 0); EvClose (File 1); EvClose (File 2) ]
  ∧ printed Stderr Examples.late_run.2.2
    = [ "Warning: failed to elevate priority!" +:+ NL;
        "Resource monitor started." +:+ NL;
        "NIC monitor started." +:+ NL;
        "ProcessSet monitor started." +:+ NL;
        "Resource monitor closed." +:+ NL;
        "NIC monitor closed." +:+ NL;
        "ProcessSet monitor closed." +:+ NL ]
  ∧ last (printed Stdout Examples.late_run.2.2)
    = Some ("Monitoring interrupted. Exiting." +:+ NL).
Proof. split_and!; by vm_compute. Qed.

(** A [--nic] list without an interface of the host: the [ValueError] of the
    constructor is on its way out of [main] when the [finally] clause, having
    closed the resource monitor, reads [nm]; the exception that leaves [main]
    is [UnboundLocalError]. *)
Lemma no_interface_run :
  run_script (repr := binary_repr) 10 Examples.bogus_args
    (Examples.main_env (Examples.nic_init ["eth0"; "lo"; "wlan0"]) 4)
  = Examples.bogus_run
  ∧ Examples.bogus_run.1 = Raise (UnboundLocalError "nm")
  ∧ file_events Examples.bogus_run.2.2 = []
  ∧ printed Stderr Examples.bogus_run.2.2
    = [ "Warning: failed to elevate priority!" +:+ NL;
        "Resource monitor started." +:+ NL;
        "NIC monitor started." +:+ NL;
        "Resource monitor closed." +:+ NL ].
Proof. split_and!; by vm_compute. Qed.

End CleanupClaims.
